(** * MaaFrameworkResourceUpdater: the patch engine of [main.py]

    A shallow embedding of [MaaFrameworkUpdater.process_diff_content] and
    [MaaFrameworkUpdater.apply_patch], and the properties the specification
    states about them; then of [read_interface], [get_latest_version],
    [generate_changelog], [get_diff_content] and [patch], with further
    properties of the code.

    Conventions of the model.
    - Text is a [string] of bytes; files are assumed to hold valid UTF-8, so
      decoding and encoding are the identity on them.
    - Python runs on a POSIX system: [os.linesep] is one line feed, text-mode
      reads translate carriage returns (universal newlines), text-mode
      writes translate nothing, [os.rename] replaces an existing target.
    - The file store holds regular files under normalised absolute paths
      (lists of components); directories are a fixed set that only
      [os.chdir] consults.  Symbolic links and permissions are not modelled.
    - [unidiff] and [json] are libraries, not code of the repository: the
      functions [PatchSet.from_string], [json.load] and [json.dump] are
      parameters of the model (class [Libs]), and the theorems hold for
      every instance.  The examples run with the instances [MiniUnidiff]
      and [MiniJson], which cover the texts the examples use.
    - The network is not code of the repository either: the answers of
      [get_request_response] are a parameter ([Releases.Feed],
      [Net.Network]), with the exception of a request as a result of its
      own. *)

From Stdlib Require Import ZArith Ascii String List Lia Sorted.
From stdpp Require Import base option list sorting strings gmap.

Local Open Scope Z_scope.

(* ===================================================================== *)
(** * Python lists *)
(* ===================================================================== *)

Module PyList.

Section Ops.
Context {A : Type}.

(** [l.pop(i)]: a negative index counts from the end; an index outside
    the list raises [IndexError], here [None]. *)
Definition pop (l : list A) (i : Z) : option (list A) :=
  let n := Z.of_nat (length l) in
  let j := if i <? 0 then i + n else i in
  if (j <? 0) || (n <=? j) then None
  else Some (delete (Z.to_nat j) l).

(** [l.insert(i, x)]: never raises; the index is clamped to the list. *)
Definition insert (l : list A) (i : Z) (x : A) : list A :=
  let n := Z.of_nat (length l) in
  let j := if i <? 0 then Z.max 0 (i + n) else Z.min i n in
  take (Z.to_nat j) l ++ x :: drop (Z.to_nat j) l.

(** A fold whose step may raise. *)
Fixpoint fold_raise {B : Type} (f : A -> B -> option A) (xs : list B)
    (a : A) : option A :=
  match xs with
  | [] => Some a
  | x :: xs' =>
      match f a x with
      | Some a' => fold_raise f xs' a'
      | None => None
      end
  end.
End Ops.

End PyList.

(* ===================================================================== *)
(** * Text files *)
(* ===================================================================== *)

Module Text.

Definition LF : ascii := "010"%char.
Definition CR : ascii := "013"%char.
Definition nl : string := String LF EmptyString.

(** A line of text followed by a line feed. *)
Definition ln (s : string) : string := s +:+ nl.

(** What a text-mode read does to the bytes of a file ([newline=None]):
    each of CR LF and CR becomes LF. *)
Fixpoint universal_newlines (s : string) : string :=
  match s with
  | EmptyString => EmptyString
  | String c rest =>
      if Ascii.eqb c CR then
        match rest with
        | String d rest' =>
            if Ascii.eqb d LF then String LF (universal_newlines rest')
            else String LF (universal_newlines rest)
        | EmptyString => String LF EmptyString
        end
      else String c (universal_newlines rest)
  end.

(** The lines of a text, each with its line feed; the last one may have
    none. *)
Fixpoint split_lines (s : string) : list string :=
  match s with
  | EmptyString => []
  | String c rest =>
      if Ascii.eqb c LF then nl :: split_lines rest
      else match split_lines rest with
           | [] => [String c EmptyString]
           | l :: ls => String c l :: ls
           end
  end.

(** [file.readlines()] on the bytes [s] of a file opened in text mode. *)
Definition readlines (s : string) : list string :=
  split_lines (universal_newlines s).

(** [file.writelines(ls)] into a file opened with ["w"]: the bytes the file
    holds afterwards. *)
Definition writelines (ls : list string) : string :=
  fold_right String.append EmptyString ls.


(** The last character of [s] is [c]. *)
Fixpoint ends_with (c : ascii) (s : string) : bool :=
  match s with
  | EmptyString => false
  | String d EmptyString => Ascii.eqb d c
  | String _ rest => ends_with c rest
  end.

Definition ends_with_lf (s : string) : bool := ends_with LF s.

(** [s.startswith(p)]. *)
Fixpoint startswith (p s : string) : bool :=
  match p, s with
  | EmptyString, _ => true
  | String a p', String b s' => Ascii.eqb a b && startswith p' s'
  | String _ _, EmptyString => false
  end.

(** [s.replace(old, new)] for a non-empty [old]: occurrences are found from
    the left and do not overlap.  [skip] counts the characters of a match
    still to be dropped. *)
Fixpoint replace_from (old new : string) (skip : nat) (s : string) : string :=
  match s with
  | EmptyString => EmptyString
  | String c rest =>
      match skip with
      | S k => replace_from old new k rest
      | O =>
          if startswith old s
          then new +:+ replace_from old new (String.length old - 1) rest
          else String c (replace_from old new O rest)
      end
  end.

Definition replace (old new s : string) : string := replace_from old new O s.

End Text.

(* ===================================================================== *)
(** * The parsed patch set *)
(* ===================================================================== *)

(** The objects of the [unidiff] library as [apply_patch] reads them. *)
Module Unidiff.

(** The values of [Line.line_type]: ['+'], ['-'], [' '] and, for the marker
    line [\ No newline at end of file], the backslash. *)
Inductive line_kind := Added | Removed | Context | NoNewline.

Definition line_kind_eqb (a b : line_kind) : bool :=
  match a, b with
  | Added, Added | Removed, Removed | Context, Context
  | NoNewline, NoNewline => true
  | _, _ => false
  end.

(** [unidiff.patch.Line].  A line number the parser did not set is [None]
    in Python as well. *)
Record Line := mkLine {
  line_type : line_kind;
  value : string;
  source_line_no : option Z;
  target_line_no : option Z
}.

Definition is_added (l : Line) : bool := line_kind_eqb (line_type l) Added.
Definition is_removed (l : Line) : bool := line_kind_eqb (line_type l) Removed.

(** [unidiff.patch.Hunk]: the numbers of its header and its body. *)
Record Hunk := mkHunk {
  source_start : Z;
  source_length : Z;
  target_start : Z;
  target_length : Z;
  lines : list Line
}.

(** [unidiff.patch.PatchedFile]: the attributes and properties that
    [apply_patch] reads, with the values the parser gave them. *)
Record PatchedFile := mkPatchedFile {
  path : string;
  target_file : string;
  is_added_file : bool;
  is_removed_file : bool;
  is_rename : bool;
  hunks : list Hunk
}.

Definition PatchSet := list PatchedFile.

End Unidiff.
Import Unidiff.

(* ===================================================================== *)
(** * The content edit (main.py, lines 273-295) *)
(* ===================================================================== *)

Module Edit.

(** Body of the inner loop at lines 277-283: a removed line with an
    integer [source_line_no] is popped at that 1-based position. *)
Definition pop_removed (content : list string) (l : Line)
    : option (list string) :=
  if is_removed l then
    match source_line_no l with
    | Some n => PyList.pop content (n - 1)
    | None => Some content
    end
  else Some content.

(** Body of the inner loop at lines 287-295: an added line with an integer
    [target_line_no] is inserted at that 1-based position. *)
Definition insert_added (content : list string) (l : Line) : list string :=
  if is_added l then
    match target_line_no l with
    | Some n => PyList.insert content (n - 1) (value l)
    | None => content
    end
  else content.

(** [for hunk in reversed(list(patched_file)): for diff_line in
    reversed(hunk): ...] *)
Definition remove_phase (content : list string) (hs : list Hunk)
    : option (list string) :=
  PyList.fold_raise
    (fun c h => PyList.fold_raise pop_removed (rev (lines h)) c)
    (rev hs) content.

(** [for hunk in patched_file: for diff_line in hunk: ...] *)
Definition add_phase (content : list string) (hs : list Hunk)
    : list string :=
  fold_left (fun c h => fold_left insert_added (lines h) c) hs content.

(** The two loops in sequence; [None] is the [IndexError] of [pop]. *)
Definition patch_lines (content : list string) (hs : list Hunk)
    : option (list string) :=
  match remove_phase content hs with
  | Some c => Some (add_phase c hs)
  | None => None
  end.

(** The lines of all hunks, in the order of the diff. *)
Definition all_lines (hs : list Hunk) : list Line := concat (map lines hs).


(** The removed lines in the order the first loop visits them, and the
    added lines in the order the second loop visits them. *)
Definition removal_order (hs : list Hunk) : list Line :=
  filter (fun l => is_removed l = true) (rev (all_lines hs)).
Definition insertion_order (hs : list Hunk) : list Line :=
  filter (fun l => is_added l = true) (all_lines hs).

(** The positions handed to [pop] and to [insert], in order. *)
Definition removal_positions (hs : list Hunk) : list Z :=
  omap source_line_no (removal_order hs).
Definition insertion_positions (hs : list Hunk) : list Z :=
  omap target_line_no (insertion_order hs).



End Edit.

(* ===================================================================== *)
(** * Paths, the file store and the process state *)
(* ===================================================================== *)

Module Path.

Definition slash : ascii := "/"%char.

(** [p.split("/")]. *)
Fixpoint split_slash (p : string) : list string :=
  match p with
  | EmptyString => [EmptyString]
  | String c rest =>
      if Ascii.eqb c slash then EmptyString :: split_slash rest
      else match split_slash rest with
           | [] => [String c EmptyString]
           | x :: xs => String c x :: xs
           end
  end.

(** One step of path resolution from the directory [dir]. *)
Definition step (dir : list string) (name : string) : list string :=
  if String.eqb name EmptyString || String.eqb name "." then dir
  else if String.eqb name ".." then removelast dir
  else dir ++ [name].

(** The file or directory that the string [p] names when the working
    directory is [dir]. *)
Definition resolve (dir : list string) (p : string) : list string :=
  fold_left step (split_slash p)
    (if Text.startswith "/" p then [] else dir).

(** The absolute name of a directory, as [os.getcwd] reports it. *)
Definition render (dir : list string) : string :=
  match dir with
  | [] => "/"
  | _ => fold_right (fun c s => String slash (c +:+ s)) EmptyString dir
  end.

(** [os.path.join(a, b)]. *)
Definition join (a b : string) : string :=
  if Text.startswith "/" b then b
  else if String.eqb a EmptyString || Text.ends_with slash a then a +:+ b
  else a +:+ String slash b.

(** A component that [resolve] keeps as it is. *)
Definition proper (name : string) : Prop :=
  split_slash name = [name] /\ name <> EmptyString /\
  name <> "." /\ name <> "..".

End Path.

(** The part of the machine that [apply_patch] reads and writes. *)
Record state := mkState {
  cwd : list string;
  dirs : gset (list string);
  files : gmap (list string) string
}.

Definition set_cwd (d : list string) (st : state) : state :=
  {| cwd := d; dirs := dirs st; files := files st |}.
Definition set_files (fs : gmap (list string) string) (st : state) : state :=
  {| cwd := cwd st; dirs := dirs st; files := fs |}.

(** The key of the file that [p] names in [st]. *)
Definition locate (st : state) (p : string) : list string :=
  Path.resolve (cwd st) p.

(** The process has a working directory that exists and is reachable by the
    name [os.getcwd] gives it. *)
Definition cwd_ok (st : state) : Prop :=
  cwd st ∈ dirs st /\ Forall Path.proper (cwd st).

(* ===================================================================== *)
(** * Exceptions and the monad of the embedding *)
(* ===================================================================== *)

Inductive exn :=
  | FileNotFoundError
  | IndexError
  | UnidiffParseError
  | JSONDecodeError
  | TypeError.

Inductive res (A : Type) : Type :=
  | Ok (a : A) (st : state)
  | Raise (e : exn) (st : state).
Arguments Ok {A} a st.
Arguments Raise {A} e st.

Definition state_of {A} (r : res A) : state :=
  match r with Ok _ st => st | Raise _ st => st end.

Definition M (A : Type) : Type := state -> res A.

Definition ret {A} (a : A) : M A := fun st => Ok a st.
Definition raise {A} (e : exn) : M A := fun st => Raise e st.
Definition bind {A B} (c : M A) (k : A -> M B) : M B :=
  fun st => match c st with
            | Ok a st' => k a st'
            | Raise e st' => Raise e st'
            end.

Notation "'do' x <- c1 ;; c2" := (bind c1 (fun x => c2))
  (at level 10, x name, c1 at level 99, c2 at level 200).

(** [for x in xs: f(x)]; an exception leaves the loop. *)
Fixpoint for_each {A} (f : A -> M unit) (xs : list A) : M unit :=
  match xs with
  | [] => ret tt
  | x :: xs' => do _ <- f x ;; for_each f xs'
  end.

(* ===================================================================== *)
(** * The operations of [os] and of text files *)
(* ===================================================================== *)

Module OS.

(** [os.getcwd()], which does not fail in a process that has a working
    directory. *)
Definition getcwd (st : state) : string := Path.render (cwd st).

Definition chdir (d : string) : M unit := fun st =>
  let target := locate st d in
  if decide (target ∈ dirs st) then Ok tt (set_cwd target st)
  else Raise FileNotFoundError st.

(** [os.path.exists(p)].  The paths of a patch are taken to name files:
    the directories of the machine are not looked at. *)
Definition path_exists (p : string) : M bool := fun st =>
  Ok (bool_decide (is_Some (files st !! locate st p))) st.

Definition remove (p : string) : M unit := fun st =>
  match files st !! locate st p with
  | Some _ => Ok tt (set_files (delete (locate st p) (files st)) st)
  | None => Raise FileNotFoundError st
  end.

Definition rename (src dst : string) : M unit := fun st =>
  match files st !! locate st src with
  | Some c =>
      Ok tt (set_files
               (<[locate st dst := c]> (delete (locate st src) (files st)))
               st)
  | None => Raise FileNotFoundError st
  end.

(** [open(p, "r").read()]. *)
Definition read_text (p : string) : M string := fun st =>
  match files st !! locate st p with
  | Some bytes => Ok (Text.universal_newlines bytes) st
  | None => Raise FileNotFoundError st
  end.

(** [open(p, "r").readlines()]. *)
Definition readlines (p : string) : M (list string) := fun st =>
  match files st !! locate st p with
  | Some bytes => Ok (Text.readlines bytes) st
  | None => Raise FileNotFoundError st
  end.

(** [open(p, "w").write(s)]; the directory of [p] is taken to exist. *)
Definition write_text (p : string) (s : string) : M unit := fun st =>
  Ok tt (set_files (<[locate st p := s]> (files st)) st).

(** [open(p, "w").writelines(ls)]. *)
Definition writelines (p : string) (ls : list string) : M unit :=
  write_text p (Text.writelines ls).

(** [open(p, "r+")] followed by [seek(0)], a write of [s] and
    [truncate()]: the file must exist. *)
Definition overwrite_text (p : string) (s : string) : M unit := fun st =>
  match files st !! locate st p with
  | Some _ => Ok tt (set_files (<[locate st p := s]> (files st)) st)
  | None => Raise FileNotFoundError st
  end.

End OS.

(* ===================================================================== *)
(** * JSON values and the libraries *)
(* ===================================================================== *)

#[warnings="-register-all"]
Inductive json :=
  | JNull
  | JBool (b : bool)
  | JNumber (literal : string)
  | JString (s : string)
  | JArray (items : list json)
  | JObject (members : list (string * json)).

Module Json.

(** [d[k] = v] on a [dict]: an existing key keeps its place. *)
Fixpoint assoc_set (k : string) (v : json) (ms : list (string * json))
    : list (string * json) :=
  match ms with
  | [] => [(k, v)]
  | (k', v') :: rest =>
      if String.eqb k k' then (k, v) :: rest
      else (k', v') :: assoc_set k v rest
  end.

Fixpoint assoc_get (k : string) (ms : list (string * json)) : option json :=
  match ms with
  | [] => None
  | (k', v') :: rest => if String.eqb k k' then Some v' else assoc_get k rest
  end.

(** [data[k] = v]; anything but a [dict] raises [TypeError] for a string
    key. *)
Definition setitem (data : json) (k : string) (v : json) : option json :=
  match data with
  | JObject ms => Some (JObject (assoc_set k v ms))
  | _ => None
  end.

Definition getitem (data : json) (k : string) : option json :=
  match data with
  | JObject ms => assoc_get k ms
  | _ => None
  end.

(** A version attribute of the updater as a JSON value. *)
Definition of_version (v : option string) : json :=
  match v with Some s => JString s | None => JNull end.

End Json.

(** The library functions the updater calls.  [PatchSet_from_string] and
    [json_load] return [None] where the library raises. *)
Class Libs := {
  PatchSet_from_string : string -> option PatchSet;
  json_load : string -> option json;
  json_dump_indent4 : json -> string
}.

(* ===================================================================== *)
(** * The updater *)
(* ===================================================================== *)

(** The attributes of [MaaFrameworkUpdater] that the patch engine uses.  A
    version that was never set is Python's [None]. *)
Record Updater := mkUpdater {
  base_dir : string;
  diff_dir : string;
  diff_filename : string;
  current_version : option string;
  latest_version : option string
}.

(** How an f-string prints a version attribute. *)
Definition format_version (v : option string) : string :=
  match v with Some s => s | None => "None" end.

(** The manifest, named from the base directory. *)
Definition manifest_name : string := "interface.json".

(** What a call leaves behind: a returned value or an exception that
    escapes. *)
Inductive outcome :=
  | Returned (b : bool)
  | Raised (e : exn).

Section Updater.

Context {L : Libs}.

(** [process_diff_content] (lines 192-209): returns its result, the updater
    with its new [diff_filename], and the state. *)
Definition process_diff_content (u : Updater) (diff_content : string)
    (st : state) : bool * Updater * state :=
  let processed_content := Text.replace "assets/" EmptyString diff_content in
  let u' :=
    {| base_dir := base_dir u;
       diff_dir := diff_dir u;
       diff_filename :=
         format_version (current_version u) +:+ "_" +:+
         format_version (latest_version u) +:+ ".diff";
       current_version := current_version u;
       latest_version := latest_version u |} in
  match OS.write_text
          (Path.join (Path.join (base_dir u') (diff_dir u')) (diff_filename u'))
          processed_content st with
  | Ok _ st' => (true, u', st')
  | Raise _ st' => (false, u', st')
  end.

(** Lines 270-298: read the lines, edit them, write them back. *)
Definition edit_file (current_file_path : string) (hs : list Hunk) : M unit :=
  do original_content <- OS.readlines current_file_path ;;
  match Edit.patch_lines original_content hs with
  | Some content => OS.writelines current_file_path content
  | None => raise IndexError
  end.

(** Lines 244-256: the rename step.  [None] is the [continue] of line 255;
    otherwise the path under which the file is addressed from here on. *)
Definition rename_step (pf : PatchedFile) : M (option string) :=
  if is_rename pf then
    do present <- OS.path_exists (path pf) ;;
    if present then
      do _ <- OS.rename (path pf) (target_file pf) ;;
      ret (Some (target_file pf))
    else ret None
  else ret (Some (path pf)).

(** Lines 258-268: a file that is absent is created empty when the patch
    adds it; otherwise the iteration ends ([false]). *)
Definition create_step (pf : PatchedFile) (current_file_path : string)
    : M bool :=
  do present <- OS.path_exists current_file_path ;;
  if present then ret true
  else if is_added_file pf then
    do _ <- OS.write_text current_file_path EmptyString ;;
    ret true
  else ret false.

(** One iteration of the loop over the patch set (lines 230-302). *)
Definition patch_one_file (pf : PatchedFile) : M unit :=
  if is_removed_file pf then
    do present <- OS.path_exists (path pf) ;;
    if present then OS.remove (path pf) else ret tt
  else
    do renamed <- rename_step pf ;;
    match renamed with
    | None => ret tt
    | Some current_file_path =>
        do go_on <- create_step pf current_file_path ;;
        if go_on then edit_file current_file_path (hunks pf) else ret tt
    end.

(** Lines 304-309: the version of the manifest is replaced. *)
Definition update_manifest (u : Updater) : M unit :=
  do text <- OS.read_text manifest_name ;;
  match json_load text with
  | None => raise JSONDecodeError
  | Some data =>
      match Json.setitem data "version" (Json.of_version (latest_version u)) with
      | None => raise TypeError
      | Some data' =>
          OS.overwrite_text manifest_name (json_dump_indent4 data')
      end
  end.

(** The [try] block of [apply_patch] after [os.getcwd()]. *)
Definition apply_patch_try (u : Updater) (original_cwd : string) : M unit :=
  do _ <- OS.chdir (base_dir u) ;;
  do patch_content <- OS.read_text (Path.join (diff_dir u) (diff_filename u)) ;;
  match PatchSet_from_string patch_content with
  | None => raise UnidiffParseError
  | Some patchset =>
      do _ <- for_each patch_one_file patchset ;;
      do _ <- update_manifest u ;;
      OS.chdir original_cwd
  end.

(** [apply_patch] (lines 211-316): [True] when the [try] block ends,
    [False] when it raises; the [finally] clause runs in both cases and an
    exception of its own escapes. *)
Definition apply_patch (u : Updater) (st : state) : outcome * state :=
  let original_cwd := OS.getcwd st in
  let after_try :=
    match apply_patch_try u original_cwd st with
    | Ok _ st' => (true, st')
    | Raise _ st' => (false, st')
    end in
  match OS.chdir original_cwd (snd after_try) with
  | Ok _ st'' => (Returned (fst after_try), st'')
  | Raise e st'' => (Raised e, st'')
  end.

End Updater.

(* ===================================================================== *)
(** * What a run reads and what it may touch *)
(* ===================================================================== *)

(** The base directory of [u] seen from the working directory of [st], and
    the manifest [apply_patch] opens after its [os.chdir]. *)
Definition base_of (u : Updater) (st : state) : list string :=
  locate st (base_dir u).
Definition manifest_key (u : Updater) (st : state) : list string :=
  Path.resolve (base_of u st) manifest_name.

(** The patch set [apply_patch] obtains in [st], if it gets that far. *)
Definition parsed_patchset {L : Libs} (u : Updater) (st : state)
    : option PatchSet :=
  match files st !! Path.resolve (base_of u st)
                      (Path.join (diff_dir u) (diff_filename u)) with
  | Some bytes => PatchSet_from_string (Text.universal_newlines bytes)
  | None => None
  end.

(** The patch [pf], applied in the directory [dir], names the file [key]. *)
Definition addresses (dir : list string) (pf : PatchedFile)
    (key : list string) : Prop :=
  Path.resolve dir (path pf) = key \/ Path.resolve dir (target_file pf) = key.

(** A computation that keeps the working directory and the directories, and
    changes no file but those that [names] name. *)
Definition frame {A} (names : list string) (c : M A) : Prop :=
  forall st : state,
    cwd (state_of (c st)) = cwd st /\
    dirs (state_of (c st)) = dirs st /\
    forall key : list string,
      (forall n, n ∈ names -> locate st n <> key) ->
      files (state_of (c st)) !! key = files st !! key.

(** The version the manifest holds, read as [read_interface] reads it. *)
Definition manifest_version {L : Libs} (u : Updater) (st : state)
    : option json :=
  match files st !! manifest_key u st with
  | Some bytes =>
      match json_load (Text.universal_newlines bytes) with
      | Some data => Json.getitem data "version"
      | None => None
      end
  | None => None
  end.

(* ===================================================================== *)
(** * Unified diffs of two files *)
(* ===================================================================== *)

(** A comparison of a file with another, cut the way a unified diff prints
    it, and the hunks the parser returns for the printed text. *)
Module Diff.

(** One body line of a hunk, holding the line of the file it stands
    for.  Lines with carriage returns are outside this model: the text of
    the patch is itself read in text mode, which rewrites them. *)
Inductive op :=
  | Ctx (l : string)
  | Del (l : string)
  | Ins (l : string).

(** A stretch of the comparison: lines that both files share and the diff
    leaves out, or the body of one hunk. *)
Inductive part :=
  | Same (ls : list string)
  | Change (body : list op).

Definition script := list part.

Definition op_source (o : op) : list string :=
  match o with Ctx l | Del l => [l] | Ins _ => [] end.
Definition op_target (o : op) : list string :=
  match o with Ctx l | Ins l => [l] | Del _ => [] end.

Definition body_source (body : list op) : list string :=
  concat (map op_source body).
Definition body_target (body : list op) : list string :=
  concat (map op_target body).

(** The lines of the file that was compared ... *)
Definition source_lines (d : script) : list string :=
  concat (map (fun p => match p with
                        | Same ls => ls
                        | Change body => body_source body
                        end) d).




(** A body line as the diff prints it after its marker character: a line
    of the file that has no line feed gets one, and the marker line
    [\ No newline at end of file] follows it. *)
Definition printed (l : string) : string :=
  if Text.ends_with_lf l then l else Text.ln l.

Definition marker_text : string := Text.ln " No newline at end of file".

Definition print_line (ty : line_kind) (l : string)
    : list (line_kind * string) :=
  (ty, printed l) ::
  (if Text.ends_with_lf l then [] else [(NoNewline, marker_text)]).

Definition print_op (o : op) : list (line_kind * string) :=
  match o with
  | Ctx l => print_line Context l
  | Del l => print_line Removed l
  | Ins l => print_line Added l
  end.

Definition print_body (body : list op) : list (line_kind * string) :=
  concat (map print_op body).

(** Modelled from the spec: the line numbering of the Diff Parser
    (section 4.1) that [PatchSet.from_string] of unidiff implements.  The
    running counters start from the numbers of the hunk header; a context
    line takes and advances both, a removed line the source counter, an
    added line the target counter; the text of a line is what follows its
    marker character, line feed included. *)
Fixpoint number_lines (s t : Z) (body : list (line_kind * string))
    : list Line :=
  match body with
  | [] => []
  | (Context, v) :: rest =>
      mkLine Context v (Some s) (Some t) :: number_lines (s + 1) (t + 1) rest
  | (Removed, v) :: rest =>
      mkLine Removed v (Some s) None :: number_lines (s + 1) t rest
  | (Added, v) :: rest =>
      mkLine Added v None (Some t) :: number_lines s (t + 1) rest
  | (NoNewline, v) :: rest =>
      mkLine NoNewline v None None :: number_lines s t rest
  end.

(** The first number of a range in a hunk header: the first line of the
    range, or the line before it when the range is empty. *)
Definition range_start (before len : Z) : Z :=
  if len =? 0 then before else before + 1.

(** The hunk for [body] when [s] lines of the source and [t] lines of the
    target precede it. *)
Definition hunk_of (s t : Z) (body : list op) : Hunk :=
  let sl := Z.of_nat (length (body_source body)) in
  let tl := Z.of_nat (length (body_target body)) in
  {| source_start := range_start s sl;
     source_length := sl;
     target_start := range_start t tl;
     target_length := tl;
     lines := number_lines (range_start s sl) (range_start t tl)
                (print_body body) |}.

Fixpoint hunks_from (s t : Z) (d : script) : list Hunk :=
  match d with
  | [] => []
  | Same ls :: d' =>
      hunks_from (s + Z.of_nat (length ls)) (t + Z.of_nat (length ls)) d'
  | Change body :: d' =>
      hunk_of s t body ::
      hunks_from (s + Z.of_nat (length (body_source body)))
                 (t + Z.of_nat (length (body_target body))) d'
  end.

(** The hunks of the parsed diff. *)
Definition hunks_of (d : script) : list Hunk := hunks_from 0 0 d.


(** The patch of a file whose content changes and whose name does not
    (headers [--- a/p] and [+++ b/p]), flagged as a plain modification. *)
Definition modified_file (p : string) (d : script) : PatchedFile :=
  {| path := p;
     target_file := "b/" +:+ p;
     is_added_file := false;
     is_removed_file := false;
     is_rename := false;
     hunks := hunks_of d |}.

End Diff.

(* ===================================================================== *)
(** * Scenarios *)
(* ===================================================================== *)

Module Scenario.
Import Text Diff.

(** Scenario A: the file a, b, c; the diff removes line 2 and adds x. *)
Definition a_source : list string := [ln "a"; ln "b"; ln "c"].
Definition a_script : script :=
  [Change [Ctx (ln "a"); Del (ln "b"); Ins (ln "x"); Ctx (ln "c")]].
Definition a_hunks : list Hunk :=
  [ {| source_start := 1; source_length := 3;
       target_start := 1; target_length := 3;
       lines := [ mkLine Context (ln "a") (Some 1) (Some 1);
                  mkLine Removed (ln "b") (Some 2) None;
                  mkLine Added (ln "x") None (Some 2);
                  mkLine Context (ln "c") (Some 3) (Some 3) ] |} ].
Definition a_expected : list string := [ln "a"; ln "x"; ln "c"].

End Scenario.


(* ===================================================================== *)
(** * A small JSON reader and writer *)
(* ===================================================================== *)

(** An instance of the [json] functions for the manifests of the examples:
    the reader accepts one object whose values are strings or [null],
    written without escapes; the writer prints strings without escapes.  On
    such texts both agree with Python's [json.load] and
    [json.dump(indent=4)]. *)
Module MiniJson.
Import Text.

Definition dq : ascii := "034"%char.
Definition backslash : ascii := "092"%char.

Definition quoted (s : string) : string :=
  String dq (s +:+ String dq EmptyString).

Fixpoint skip_ws (s : string) : string :=
  match s with
  | String c rest => if Ascii.is_space c then skip_ws rest else s
  | EmptyString => s
  end.

(** The characters up to the closing quote, and what follows it. *)
Fixpoint read_chars (s : string) : option (string * string) :=
  match s with
  | EmptyString => None
  | String c rest =>
      if Ascii.eqb c dq then Some (EmptyString, rest)
      else if Ascii.eqb c backslash then None
      else match read_chars rest with
           | Some (v, rest') => Some (String c v, rest')
           | None => None
           end
  end.

Definition read_string (s : string) : option (string * string) :=
  match s with
  | String c rest => if Ascii.eqb c dq then read_chars rest else None
  | EmptyString => None
  end.

Definition read_value (s : string) : option (json * string) :=
  match s with
  | String "n" (String "u" (String "l" (String "l" rest))) =>
      Some (JNull, rest)
  | _ => match read_string s with
         | Some (v, rest) => Some (JString v, rest)
         | None => None
         end
  end.

(** The members of an object from its first key to its closing brace. *)
Fixpoint read_members (fuel : nat) (s : string)
    : option (list (string * json) * string) :=
  match fuel with
  | O => None
  | S fuel' =>
      match read_string (skip_ws s) with
      | Some (k, r1) =>
          match skip_ws r1 with
          | String ":" r2 =>
              match read_value (skip_ws r2) with
              | Some (v, r3) =>
                  match skip_ws r3 with
                  | String "," r4 =>
                      match read_members fuel' r4 with
                      | Some (ms, r5) => Some ((k, v) :: ms, r5)
                      | None => None
                      end
                  | String "}" r4 => Some ([(k, v)], r4)
                  | _ => None
                  end
              | None => None
              end
          | _ => None
          end
      | None => None
      end
  end.

Definition is_blank (s : string) : bool :=
  match skip_ws s with EmptyString => true | _ => false end.

Definition load (s : string) : option json :=
  match skip_ws s with
  | String "{" r =>
      match skip_ws r with
      | String "}" r' => if is_blank r' then Some (JObject []) else None
      | _ =>
          match read_members (String.length s) r with
          | Some (ms, r') => if is_blank r' then Some (JObject ms) else None
          | None => None
          end
      end
  | _ => None
  end.

Fixpoint pad (level : nat) : string :=
  match level with
  | O => EmptyString
  | S n => "    " +:+ pad n
  end.

Fixpoint join_with (sep : string) (ss : list string) : string :=
  match ss with
  | [] => EmptyString
  | [s] => s
  | s :: rest => s +:+ sep +:+ join_with sep rest
  end.

Fixpoint dump_at (level : nat) (j : json) : string :=
  match j with
  | JNull => "null"
  | JBool true => "true"
  | JBool false => "false"
  | JNumber literal => literal
  | JString s => quoted s
  | JArray [] => "[]"
  | JArray items =>
      "[" +:+ nl +:+
      join_with ("," +:+ nl)
        (map (fun v => pad (S level) +:+ dump_at (S level) v) items) +:+
      nl +:+ pad level +:+ "]"
  | JObject [] => "{}"
  | JObject members =>
      "{" +:+ nl +:+
      join_with ("," +:+ nl)
        (map (fun kv => let (k, v) := kv : string * json in
                        pad (S level) +:+ quoted k +:+ ": " +:+
                        dump_at (S level) v) members) +:+
      nl +:+ pad level +:+ "}"
  end.

Definition dump_indent4 (j : json) : string := dump_at 0 j.

End MiniJson.

(* ===================================================================== *)
(** * A small parser of unified diffs *)
(* ===================================================================== *)

(** Modelled from the spec: the Diff Parser of section 4.1 for the input
    format of section 6, which the code takes from unidiff
    ([PatchSet.from_string]).  This instance accepts the texts on which
    every attribute that [apply_patch] reads is settled by that format: each
    file has the headers [--- a/NAME] and [+++ b/NAME] with one and the same
    name, followed by hunks none of whose ranges is [0,0].  Any other text
    is refused. *)
Module MiniUnidiff.
Import Text.

(** [s] without the prefix [p]. *)
Fixpoint strip_prefix (p s : string) : option string :=
  match p, s with
  | EmptyString, _ => Some s
  | String a p', String b s' =>
      if Ascii.eqb a b then strip_prefix p' s' else None
  | String _ _, EmptyString => None
  end.

(** The characters of a header line up to its tab or line feed. *)
Fixpoint name_of (s : string) : string :=
  match s with
  | EmptyString => EmptyString
  | String c rest =>
      if Ascii.eqb c LF || Ascii.eqb c "009"%char then EmptyString
      else String c (name_of rest)
  end.

Fixpoint read_digits (acc : nat) (s : string) : nat * string :=
  match s with
  | String c rest =>
      match Ascii.is_nat c with
      | Some d => read_digits (10 * acc + d)%nat rest
      | None => (acc, s)
      end
  | EmptyString => (acc, s)
  end.

Definition read_number (s : string) : option (nat * string) :=
  match s with
  | String c _ =>
      match Ascii.is_nat c with
      | Some _ => Some (read_digits 0 s)
      | None => None
      end
  | EmptyString => None
  end.

(** A range [START] or [START,LENGTH] of a hunk header; the length is 1
    when it is left out. *)
Definition read_range (s : string) : option (nat * nat * string) :=
  match read_number s with
  | Some (start, String "," rest) =>
      match read_number rest with
      | Some (len, rest') => Some (start, len, rest')
      | None => None
      end
  | Some (start, rest) => Some (start, 1%nat, rest)
  | None => None
  end.

(** The four numbers of [@@ -a,b +c,d @@]. *)
Definition read_hunk_header (l : string) : option (nat * nat * nat * nat) :=
  match strip_prefix "@@ -" l with
  | Some r =>
      match read_range r with
      | Some (ss, sl, r1) =>
          match strip_prefix " +" r1 with
          | Some r2 =>
              match read_range r2 with
              | Some (ts, tl, r3) =>
                  match strip_prefix " @@" r3 with
                  | Some _ => Some (ss, sl, ts, tl)
                  | None => None
                  end
              | None => None
              end
          | None => None
          end
      | None => None
      end
  | None => None
  end.

(** The body of a hunk that still expects [sl] lines of the source and
    [tl] lines of the target, with the running counters [s] and [t]; the
    lines after the hunk are returned.  A marker line belongs to the hunk
    it follows. *)
Fixpoint read_body (sl tl : nat) (s t : Z) (ls : list string)
    : option (list Line * list string) :=
  match ls with
  | String "092" v :: rest =>
      match read_body sl tl s t rest with
      | Some (body, rest') => Some (mkLine NoNewline v None None :: body, rest')
      | None => None
      end
  | String " " v :: rest =>
      match sl, tl with
      | S sl', S tl' =>
          match read_body sl' tl' (s + 1) (t + 1) rest with
          | Some (body, rest') =>
              Some (mkLine Context v (Some s) (Some t) :: body, rest')
          | None => None
          end
      | O, O => Some ([], ls)
      | _, _ => None
      end
  | String "-" v :: rest =>
      match sl, tl with
      | S sl', _ =>
          match read_body sl' tl (s + 1) t rest with
          | Some (body, rest') =>
              Some (mkLine Removed v (Some s) None :: body, rest')
          | None => None
          end
      | O, O => Some ([], ls)
      | O, S _ => None
      end
  | String "+" v :: rest =>
      match sl, tl with
      | _, S tl' =>
          match read_body sl tl' s (t + 1) rest with
          | Some (body, rest') =>
              Some (mkLine Added v None (Some t) :: body, rest')
          | None => None
          end
      | O, O => Some ([], ls)
      | S _, O => None
      end
  | _ =>
      match sl, tl with
      | O, O => Some ([], ls)
      | _, _ => None
      end
  end.

(** The hunks up to the next file header. *)
Fixpoint read_hunks (fuel : nat) (ls : list string)
    : option (list Hunk * list string) :=
  match fuel, ls with
  | S fuel', l :: rest =>
      match read_hunk_header l with
      | Some (ss, sl, ts, tl) =>
          if (Nat.eqb ss 0 && Nat.eqb sl 0) || (Nat.eqb ts 0 && Nat.eqb tl 0)
          then None
          else
            match read_body sl tl (Z.of_nat ss) (Z.of_nat ts) rest with
            | Some (body, rest') =>
                match read_hunks fuel' rest' with
                | Some (hs, rest'') =>
                    Some ({| source_start := Z.of_nat ss;
                             source_length := Z.of_nat sl;
                             target_start := Z.of_nat ts;
                             target_length := Z.of_nat tl;
                             lines := body |} :: hs, rest'')
                | None => None
                end
            | None => None
            end
      | None => Some ([], ls)
      end
  | _, _ => Some ([], ls)
  end.

Fixpoint read_files (fuel : nat) (ls : list string) : option PatchSet :=
  match fuel, ls with
  | _, [] => Some []
  | S fuel', l1 :: l2 :: rest =>
      match strip_prefix "--- a/" l1, strip_prefix "+++ b/" l2 with
      | Some n1, Some n2 =>
          if String.eqb (name_of n1) (name_of n2) then
            match read_hunks fuel' rest with
            | Some (h :: hs, rest') =>
                match read_files fuel' rest' with
                | Some pfs =>
                    Some ({| path := name_of n1;
                             target_file := "b/" +:+ name_of n2;
                             is_added_file := false;
                             is_removed_file := false;
                             is_rename := false;
                             hunks := h :: hs |} :: pfs)
                | None => None
                end
            | _ => None
            end
          else None
      | _, _ => None
      end
  | _, _ => None
  end.

Definition from_string (text : string) : option PatchSet :=
  let ls := split_lines text in read_files (length ls) ls.

End MiniUnidiff.

(* ===================================================================== *)
(** * Examples: a machine, an updater and some patches *)
(* ===================================================================== *)

Module Demo.
Import Text MiniJson.

Definition home : list string := ["home"].
Definition app : list string := ["home"; "app"].

(** A machine with the directories [/home] and [/home/app], working in
    [at_dir], whose base directory [/home/app] holds the files [fs]. *)
Definition machine (at_dir : list string) (fs : list (string * string))
    : state :=
  {| cwd := at_dir;
     dirs := {[ home; app ]};
     files := list_to_map
                (map (fun nf => (Path.resolve app (fst nf), snd nf)) fs) |}.

(** The content of the file [name] of the base directory. *)
Definition content (st : state) (name : string) : option string :=
  files st !! Path.resolve app name.

Definition updater : Updater :=
  {| base_dir := "app";
     diff_dir := "patch";
     diff_filename := "v1_v2.diff";
     current_version := Some "v1";
     latest_version := Some "v2" |}.

Definition plain (p : string) (hs : list Hunk) : PatchedFile :=
  {| path := p; target_file := "b/" +:+ p;
     is_added_file := false; is_removed_file := false; is_rename := false;
     hunks := hs |}.

(** Removal of [foo.txt] (scenario B). *)
Definition remove_foo : PatchedFile :=
  {| path := "foo.txt"; target_file := "/dev/null";
     is_added_file := false; is_removed_file := true; is_rename := false;
     hunks := [ {| source_start := 1; source_length := 1;
                   target_start := 0; target_length := 0;
                   lines := [mkLine Removed (ln "bar") (Some 1) None] |} ] |}.





(** A hunk that removes line 5. *)
Definition remove_line_5 : PatchedFile :=
  plain "notes.txt"
    [ {| source_start := 5; source_length := 1;
         target_start := 4; target_length := 0;
         lines := [mkLine Removed (ln "gone") (Some 5) None] |} ].

(** The file [a] with a line feed compared with the file [a] without. *)
Definition drop_final_newline : Diff.script :=
  [Diff.Change [Diff.Del (ln "a"); Diff.Ins "a"]].

(** Manifests. *)
Definition manifest (version : string) : string :=
  ln ("{" +:+ quoted "version" +:+ ": " +:+ quoted version +:+ "}").

(** A patch of the manifest itself: its only line is replaced. *)
Definition bump_manifest : PatchedFile :=
  plain "interface.json"
    [ {| source_start := 1; source_length := 1;
         target_start := 1; target_length := 1;
         lines := [mkLine Removed (manifest "v1") (Some 1) None;
                   mkLine Added (manifest "v2") None (Some 1)] |} ].

(** The text of a diff: header lines for [name] and the body of one
    hunk. *)
Definition file_header (name : string) : string :=
  ln ("--- a/" +:+ name) +:+ ln ("+++ b/" +:+ name).

Definition diff_bump_then_fail : string :=
  file_header "interface.json" +:+ ln "@@ -1 +1 @@" +:+
  "-" +:+ manifest "v1" +:+ "+" +:+ manifest "v2" +:+
  file_header "notes.txt" +:+ ln "@@ -5 +4,0 @@" +:+ ln "-gone".

Definition diff_fail : string :=
  file_header "notes.txt" +:+ ln "@@ -5 +4,0 @@" +:+ ln "-gone".

Definition diff_scenario_a : string :=
  file_header "abc.txt" +:+ ln "@@ -1,3 +1,3 @@" +:+
  ln " a" +:+ ln "-b" +:+ ln "+x" +:+ ln " c".

#[global] Instance libs : Libs :=
  {| PatchSet_from_string := MiniUnidiff.from_string;
     json_load := MiniJson.load;
     json_dump_indent4 := MiniJson.dump_indent4 |}.

(** Six lines compared without context: x is inserted after line 1 and
    line 5 is removed; the text of the diff as [diff -U0] prints it. *)
Definition two_hunks : Diff.script :=
  [Diff.Same [ln "l1"];
   Diff.Change [Diff.Ins (ln "x")];
   Diff.Same [ln "l2"; ln "l3"; ln "l4"];
   Diff.Change [Diff.Del (ln "l5")];
   Diff.Same [ln "l6"]].

Definition diff_two_hunks : string :=
  file_header "six.txt" +:+
  ln "@@ -1,0 +2 @@" +:+ ln "+x" +:+
  ln "@@ -5 +5,0 @@" +:+ ln "-l5".

(** The text of the diff [drop_final_newline] for the file [f.txt]. *)
Definition diff_drop_final_newline : string :=
  file_header "f.txt" +:+ ln "@@ -1 +1 @@" +:+ ln "-a" +:+ ln "+a" +:+
  String backslash Diff.marker_text.

(** A diff whose second line of body mentions the directory [assets/]. *)
Definition diff_with_assets_in_body : string :=
  file_header "assets/resource/readme.txt" +:+ ln "@@ -1 +1 @@" +:+
  ln "-icons are in img/" +:+ ln "+icons are in assets/img/".

Definition diff_after_processing : string :=
  file_header "resource/readme.txt" +:+ ln "@@ -1 +1 @@" +:+
  ln "-icons are in img/" +:+ ln "+icons are in img/".

End Demo.

(* ===================================================================== *)
(** * More about the patch engine *)
(* ===================================================================== *)

Module Blind.

(** A line of a hunk without the text the diff expects the file to hold: the
    value of a removed line, a context line or a marker line is emptied,
    an added line is kept. *)
Definition blank_text (l : Line) : Line :=
  if is_added l then l
  else mkLine (line_type l) EmptyString (source_line_no l) (target_line_no l).

Definition blank_hunk (h : Hunk) : Hunk :=
  {| source_start := source_start h;
     source_length := source_length h;
     target_start := target_start h;
     target_length := target_length h;
     lines := map blank_text (lines h) |}.

End Blind.

Module Occurs.

(** [old in s]: the text [old] occurs somewhere in [s]. *)
Fixpoint occurs (old s : string) : bool :=
  Text.startswith old s ||
  match s with
  | EmptyString => false
  | String _ rest => occurs old rest
  end.

End Occurs.


(** The manifest of [st] cannot be rewritten: it is missing, it is not
    JSON, or its JSON value is not an object. *)
Definition manifest_unusable {L : Libs} (st : state) : Prop :=
  match files st !! locate st manifest_name with
  | None => True
  | Some bytes =>
      match json_load (Text.universal_newlines bytes) with
      | None => True
      | Some (JObject _) => False
      | Some _ => True
      end
  end.

(* ===================================================================== *)
(** * Reading the manifest ([read_interface], lines 55-72) *)
(* ===================================================================== *)

Module Py.

(** [sep.join(parts)]. *)
Fixpoint str_join (sep : string) (parts : list string) : string :=
  match parts with
  | [] => EmptyString
  | [s] => s
  | s :: rest => s +:+ sep +:+ str_join sep rest
  end.

(** [l[-2:]]: the last two elements, or all of a shorter list. *)
Definition last_two {A} (l : list A) : list A :=
  drop (length l - 2)%nat l.

(** How an f-string prints a string or [None]. *)
Definition format (v : option string) : string :=
  match v with Some s => s | None => "None" end.

End Py.

Module Interface.

(** The exceptions that [read_interface] does not catch. *)
Inductive escaping :=
  | KeyError (key : string)
  | TypeError_not_a_dict
  | AttributeError_not_a_str.

(** [data[key]] for a string key: only a [dict] can be indexed that way. *)
Definition subscript (data : json) (key : string) : escaping + json :=
  match data with
  | JObject members =>
      match Json.assoc_get key members with
      | Some v => inr v
      | None => inl (KeyError key)
      end
  | _ => inl TypeError_not_a_dict
  end.

(** ["/".join(url.split("/")[-2:])]. *)
Definition repo_of_url (url : string) : string :=
  Py.str_join "/" (Py.last_two (Path.split_slash url)).

(** What a call of [read_interface] leaves: [True] with the two attributes
    it has set, [False], or an exception that escapes, with the value
    [current_version] has been given before, if any. *)
Inductive result :=
  | ReadTrue (current_version : json) (repo : string)
  | ReadFalse
  | ReadRaises (e : escaping) (current_version : option json).

Section Read.
Context {L : Libs}.

Definition read_interface (u : Updater) (st : state) : result :=
  match OS.read_text (Path.join (base_dir u) manifest_name) st with
  | Raise _ _ => ReadFalse
  | Ok text _ =>
      match json_load text with
      | None => ReadFalse
      | Some data =>
          match subscript data "version" with
          | inl e => ReadRaises e None
          | inr version =>
              match subscript data "url" with
              | inl e => ReadRaises e (Some version)
              | inr (JString url) => ReadTrue version (repo_of_url url)
              | inr _ => ReadRaises AttributeError_not_a_str (Some version)
              end
          end
      end
  end.

End Read.

(** A manifest with a version and the address of its repository. *)
Definition demo_manifest (version url : string) : string :=
  Text.ln ("{" +:+ MiniJson.quoted "version" +:+ ": " +:+
           MiniJson.quoted version +:+ ", " +:+
           MiniJson.quoted "url" +:+ ": " +:+ MiniJson.quoted url +:+ "}").

End Interface.

(* ===================================================================== *)
(** * The release feed ([get_latest_version], lines 133-152, and
      [generate_changelog], lines 154-173) *)
(* ===================================================================== *)

Module Releases.

(** An entry of the list the releases address answers with: the three
    fields the updater reads.  [body] is [None] for a JSON [null]. *)
Record Tag := mkTag {
  tag_name : string;
  prerelease : bool;
  body : option string
}.

(** [get_request_response(url=release_url, params=params).json()]: the
    entries of a page, or [Failed] where the request raises. *)
Inductive fetched :=
  | Page (tags : list Tag)
  | Failed.

(** The feed, asked with [per_page] and [page]. *)
Definition Feed := nat -> nat -> fetched.

(** [range(1, 101)]. *)
Definition pages : list nat := seq 1 100.

(** [tag["prerelease"] and not self.prerelease]. *)
Definition passed_over (prerelease_wanted : bool) (tag : Tag) : bool :=
  prerelease tag && negb prerelease_wanted.

(** [tag["tag_name"] == self.current_version]. *)
Definition is_current (current_version : option string) (tag : Tag) : bool :=
  match current_version with
  | Some v => String.eqb (tag_name tag) v
  | None => false
  end.

(** What [get_latest_version] leaves: [True] with the [latest_version] it
    has set, [False], or the exception of a request. *)
Inductive latest :=
  | LatestTrue (latest_version : string)
  | LatestFalse
  | LatestRaises.

(** The inner loop of lines 146-150. *)
Fixpoint first_wanted (prerelease_wanted : bool) (tags : list Tag)
    : option string :=
  match tags with
  | [] => None
  | tag :: rest =>
      if passed_over prerelease_wanted tag
      then first_wanted prerelease_wanted rest
      else Some (tag_name tag)
  end.

(** The loop of lines 138-150 over the pages that are left. *)
Fixpoint latest_in_pages (prerelease_wanted : bool) (fetch : nat -> fetched)
    (todo : list nat) : latest :=
  match todo with
  | [] => LatestFalse
  | page :: rest =>
      match fetch page with
      | Failed => LatestRaises
      | Page [] => LatestFalse
      | Page tags =>
          match first_wanted prerelease_wanted tags with
          | Some v => LatestTrue v
          | None => latest_in_pages prerelease_wanted fetch rest
          end
      end
  end.

Definition get_latest_version (prerelease_wanted : bool) (feed : Feed)
    (per_page : nat) : latest :=
  latest_in_pages prerelease_wanted (feed per_page) pages.

(** [f"# {tag['tag_name']}:\n\n{tag['body']}\n"]. *)
Definition entry (tag : Tag) : string :=
  "# " +:+ tag_name tag +:+ ":" +:+ Text.nl +:+ Text.nl +:+
  Py.format (body tag) +:+ Text.nl.

(** The text returned on an empty page (line 165). *)
Definition invalid_tag (repo : option string) : string :=
  "Invaild tag! Please redownload in https://github.com/" +:+
  Py.format repo +:+ "/releases/latest".

(** What [generate_changelog] leaves: the text it returns, or the
    exception of a request. *)
Inductive changelog :=
  | Changelog (text : string)
  | ChangelogRaises.

(** The inner loop of lines 166-172: the text to return at the current
    version, or [changelogs] and [start_flag] after the last entry. *)
Fixpoint walk_tags (current_version : option string)
    (prerelease_wanted : bool) (tags : list Tag)
    (changelogs : list string) (start_flag : bool)
    : string + list string * bool :=
  match tags with
  | [] => inr (changelogs, start_flag)
  | tag :: rest =>
      if is_current current_version tag
      then inl (Py.str_join Text.nl changelogs)
      else if negb start_flag && passed_over prerelease_wanted tag
      then walk_tags current_version prerelease_wanted rest
             changelogs start_flag
      else walk_tags current_version prerelease_wanted rest
             (changelogs ++ [entry tag]) true
  end.

(** The loop of lines 160-173 over the pages that are left. *)
Fixpoint walk_pages (repo current_version : option string)
    (prerelease_wanted : bool) (fetch : nat -> fetched) (todo : list nat)
    (changelogs : list string) (start_flag : bool) : changelog :=
  match todo with
  | [] => Changelog (Py.str_join Text.nl changelogs)
  | page :: rest =>
      match fetch page with
      | Failed => ChangelogRaises
      | Page [] => Changelog (invalid_tag repo)
      | Page tags =>
          match walk_tags current_version prerelease_wanted tags
                  changelogs start_flag with
          | inl text => Changelog text
          | inr (changelogs', start_flag') =>
              walk_pages repo current_version prerelease_wanted fetch rest
                changelogs' start_flag'
          end
      end
  end.

Definition generate_changelog (repo current_version : option string)
    (prerelease_wanted : bool) (feed : Feed) (per_page : nat) : changelog :=
  walk_pages repo current_version prerelease_wanted (feed per_page) pages
    [] false.

(** The feed serves the releases [all], newest first, in pages of
    [per_page] entries numbered from 1. *)
Definition paginates (feed : Feed) (all : list Tag) : Prop :=
  forall per_page page,
    feed per_page (S page) = Page (take per_page (drop (page * per_page) all)).

(** The releases [listed] begin with one that is not passed over. *)
Definition starts_listed (prerelease_wanted : bool) (listed : list Tag)
    : Prop :=
  match listed with
  | [] => True
  | tag :: _ => passed_over prerelease_wanted tag = false
  end.

(** A feed that serves [all]. *)
Definition serve (all : list Tag) : Feed :=
  fun per_page page =>
    Page (take per_page (drop ((page - 1) * per_page) all)).

(** Four releases, newest first; the newest is a prerelease. *)
Definition demo_feed : list Tag :=
  [ mkTag "v4-beta" true (Some "try it");
    mkTag "v3" false (Some "third");
    mkTag "v2" false None;
    mkTag "v1" false (Some "first") ].

End Releases.

(* ===================================================================== *)
(** * Download and patch ([get_diff_content], lines 175-190, and [patch],
      lines 318-332) *)
(* ===================================================================== *)

Module Net.

(** [get_request_response(url)] as the updater uses its result: the JSON
    value of the response ([response.json()]) and its text
    ([response.text]).  [None] stands for an exception: of the request,
    or of the decoding of a body that is not JSON. *)
Record Network := mkNetwork {
  request_json : string -> option json;
  request_text : string -> option string
}.

(** [COMPARE_URL_TEMPLATE.format(...)] (lines 22-24 and 179-183). *)
Definition compare_url (repo : option string) (u : Updater) : string :=
  "https://api.github.com/repos/" +:+ Py.format repo +:+ "/compare/" +:+
  Py.format (current_version u) +:+ "..." +:+ Py.format (latest_version u).

(** [get_diff_content]: the text of the diff, or [None] where an exception
    leaves the method.  A missing [diff_url] is a [KeyError], turned into
    an [Exception]; a response that is no [dict] is a [TypeError]; an
    address that is no string is refused by the request. *)
Definition get_diff_content (net : Network) (repo : option string)
    (u : Updater) : option string :=
  match request_json net (compare_url repo u) with
  | None => None
  | Some data =>
      match Interface.subscript data "diff_url" with
      | inl _ => None
      | inr (JString diff_url) => request_text net diff_url
      | inr _ => None
      end
  end.

Section Patch.
Context {L : Libs}.

(** [patch]: its result, the updater and the state it leaves.  Every
    exception is caught (line 330), that of [apply_patch] too. *)
Definition patch (net : Network) (repo : option string) (u : Updater)
    (st : state) : bool * Updater * state :=
  match get_diff_content net repo u with
  | None => (false, u, st)
  | Some diff_content =>
      match process_diff_content u diff_content st with
      | (true, u', st') =>
          match apply_patch u' st' with
          | (Returned true, st'') => (true, u', st'')
          | (_, st'') => (false, u', st'')
          end
      | (false, u', st') => (false, u', st')
      end
  end.

End Patch.

(** A network that knows one comparison and one diff. *)
Definition demo_net (compare_address diff_address diff_text : string)
    : Network :=
  {| request_json := fun url =>
       if String.eqb url compare_address
       then Some (JObject [("diff_url", JString diff_address)])
       else None;
     request_text := fun url =>
       if String.eqb url diff_address then Some diff_text else None |}.

(** The download of scenario A: the diff names [assets/abc.txt]. *)
Definition demo_repo : option string := Some "MaaXYZ/MaaResource".
Definition demo_diff : string :=
  Demo.file_header "assets/abc.txt" +:+ Text.ln "@@ -1,3 +1,3 @@" +:+
  Text.ln " a" +:+ Text.ln "-b" +:+ Text.ln "+x" +:+ Text.ln " c".
Definition demo_network : Network :=
  demo_net "https://api.github.com/repos/MaaXYZ/MaaResource/compare/v1...v2"
    "https://github.com/MaaXYZ/MaaResource/compare/v1...v2.diff" demo_diff.

(** A machine with the manifest and the file of scenario A, and no diff
    yet. *)
Definition demo_machine : state :=
  Demo.machine Demo.home
    [("interface.json", Demo.manifest "v1");
     ("abc.txt", Text.writelines Scenario.a_source)].

End Net.
(* ===================================================================== *)
(** * The operations on small inputs *)
(* ===================================================================== *)

Example pop_examples :
  PyList.pop [1; 2; 3] 1 = Some [1; 3] /\
  PyList.pop [1] 1 = None /\
  PyList.pop [1; 2] (-1) = Some [1] /\
  PyList.pop [1; 2] (-3) = None /\
  PyList.pop ([] : list Z) 0 = None.
Proof. repeat split; reflexivity. Qed.

Example insert_examples :
  PyList.insert [1; 2] 1 9 = [1; 9; 2] /\
  PyList.insert [1; 2] 5 9 = [1; 2; 9] /\
  PyList.insert [1; 2] (-1) 9 = [1; 9; 2] /\
  PyList.insert [1; 2] (-5) 9 = [9; 1; 2].
Proof. repeat split; reflexivity. Qed.

Example readlines_examples :
  Text.readlines (Text.ln "a" +:+ "b") = [Text.ln "a"; "b"] /\
  Text.readlines
    ("a" +:+ String Text.CR (String Text.LF ("b" +:+ String Text.CR "c")))
    = [Text.ln "a"; Text.ln "b"; "c"] /\
  Text.readlines EmptyString = [] /\
  Text.writelines [Text.ln "a"; "b"] = Text.ln "a" +:+ "b".
Proof. vm_compute. repeat split; reflexivity. Qed.

Example path_examples :
  Path.resolve ["home"] "app/./patch/../x.txt" = ["home"; "app"; "x.txt"] /\
  Path.resolve ["home"] "/etc//hosts" = ["etc"; "hosts"] /\
  Path.resolve ["home"] "." = ["home"] /\
  Path.join "app" "patch" = "app/patch" /\
  Path.join "app/" "patch" = "app/patch" /\
  Path.join "app" "/abs" = "/abs" /\
  Path.render ["home"; "app"] = "/home/app".
Proof. vm_compute. repeat split; reflexivity. Qed.

Example scenario_a_hunks : Diff.hunks_of Scenario.a_script = Scenario.a_hunks.
Proof. reflexivity. Qed.

(** The parser on the texts of the examples: the patch sets are the ones
    written out in [Demo], and the hunks are those of the diff model. *)
Example parser_examples :
  MiniUnidiff.from_string Demo.diff_scenario_a
    = Some [Diff.modified_file "abc.txt" Scenario.a_script] /\
  MiniUnidiff.from_string Demo.diff_bump_then_fail
    = Some [Demo.bump_manifest; Demo.remove_line_5] /\
  MiniUnidiff.from_string Demo.diff_fail = Some [Demo.remove_line_5] /\
  MiniUnidiff.from_string Demo.diff_drop_final_newline
    = Some [Diff.modified_file "f.txt" Demo.drop_final_newline] /\
  MiniUnidiff.from_string Demo.diff_two_hunks
    = Some [Diff.modified_file "six.txt" Demo.two_hunks] /\
  MiniUnidiff.from_string (Text.ln "@@ -1 +1 @@") = None.
Proof. vm_compute. repeat split; reflexivity. Qed.

Example two_hunks_run :
  Diff.source_lines Demo.two_hunks
    = [Text.ln "l1"; Text.ln "l2"; Text.ln "l3"; Text.ln "l4"; Text.ln "l5";
       Text.ln "l6"] /\
  Edit.removal_positions (Diff.hunks_of Demo.two_hunks) = [5] /\
  Edit.insertion_positions (Diff.hunks_of Demo.two_hunks) = [2] /\
  Edit.patch_lines (Diff.source_lines Demo.two_hunks)
    (Diff.hunks_of Demo.two_hunks)
    = Some [Text.ln "l1"; Text.ln "x"; Text.ln "l2"; Text.ln "l3";
            Text.ln "l4"; Text.ln "l6"].
Proof. vm_compute. repeat split; reflexivity. Qed.

Example scenario_a_runs :
  Edit.patch_lines Scenario.a_source Scenario.a_hunks = Some Scenario.a_expected.
Proof. vm_compute. reflexivity. Qed.

(* ===================================================================== *)
(** * Facts about the Python list operations *)
(* ===================================================================== *)

Module PyListFacts.
Import PyList.

Section Facts.
Context {A : Type}.
Implicit Types (l pre post : list A) (x : A) (i : Z).







Lemma fold_raise_app {B} (f : A -> B -> option A) (xs ys : list B) (a : A) :
  fold_raise f (xs ++ ys) a =
  match fold_raise f xs a with
  | Some a' => fold_raise f ys a'
  | None => None
  end.
Proof.
  revert a. induction xs as [|x xs IH]; intros a; [reflexivity|].
  cbn. destruct (f a x); [apply IH|reflexivity].
Qed.

(** Nested loops visit the elements of the inner lists in order. *)
Lemma fold_raise_concat {B C} (g : A -> C -> option A) (k : B -> list C)
    (xs : list B) (a : A) :
  fold_raise (fun c h => fold_raise g (k h) c) xs a =
  fold_raise g (concat (map k xs)) a.
Proof.
  revert a. induction xs as [|x xs IH]; intros a; [reflexivity|].
  cbn. rewrite fold_raise_app.
  destruct (fold_raise g (k x) a); [apply IH|reflexivity].
Qed.
End Facts.

End PyListFacts.

(* ===================================================================== *)
(** * Facts about the content edit *)
(* ===================================================================== *)

Module EditFacts.
Import PyList PyListFacts Edit.

Lemma rev_all_lines (hs : list Hunk) :
  rev (all_lines hs) = concat (map (fun h => rev (lines h)) (rev hs)).
Proof.
  unfold all_lines. induction hs as [|h hs IH]; [reflexivity|].
  cbn. rewrite rev_app_distr, IH, map_app, concat_app. cbn.
  rewrite app_nil_r. reflexivity.
Qed.

(** The first pair of loops pops along the lines of the diff read
    backwards ... *)
Lemma remove_phase_flat content hs :
  remove_phase content hs =
  fold_raise pop_removed (rev (all_lines hs)) content.
Proof.
  unfold remove_phase. rewrite rev_all_lines.
  apply (fold_raise_concat pop_removed (fun h => rev (lines h))).
Qed.

(** ... and the second inserts along the lines read forwards. *)
Lemma add_phase_flat content hs :
  add_phase content hs = fold_left insert_added (all_lines hs) content.
Proof.
  unfold add_phase, all_lines. revert content.
  induction hs as [|h hs IH]; intros content; [reflexivity|].
  cbn. rewrite fold_left_app. apply IH.
Qed.









End EditFacts.

(* ===================================================================== *)
(** * Facts about parsed diffs *)
(* ===================================================================== *)

Module DiffFacts.
Import PyList PyListFacts Edit EditFacts Diff.


























End DiffFacts.

(* ===================================================================== *)
(** * Facts about text and paths *)
(* ===================================================================== *)

Module TextFacts.
Import Text.

Lemma append_cons c a b : String c a +:+ b = String c (a +:+ b).
Proof. reflexivity. Qed.

Lemma append_empty_r a : a +:+ EmptyString = a.
Proof.
  induction a as [|c a IH]; [reflexivity|].
  rewrite append_cons, IH. reflexivity.
Qed.





End TextFacts.

Module PathFacts.
Import Path TextFacts.

Lemma split_slash_nonempty p : split_slash p <> [].
Proof.
  destruct p as [|c p]; [discriminate|]. cbn [split_slash].
  destruct (Ascii.eqb c slash); [discriminate|].
  destruct (split_slash p); discriminate.
Qed.

Lemma split_slash_append a s :
  split_slash (a +:+ String slash s) = split_slash a ++ split_slash s.
Proof.
  induction a as [|c a IH]; [reflexivity|].
  rewrite append_cons. cbn [split_slash]. rewrite IH.
  destruct (Ascii.eqb c slash); [reflexivity|].
  pose proof (split_slash_nonempty a) as Hne.
  destruct (split_slash a); [congruence|reflexivity].
Qed.

Lemma step_proper dir name : proper name -> step dir name = dir ++ [name].
Proof.
  intros (_ & H1 & H2 & H3). unfold step.
  apply String.eqb_neq in H1, H2, H3. rewrite H1, H2, H3. reflexivity.
Qed.

Lemma resolve_components cs : forall dir,
  Forall proper cs ->
  fold_left step
    (split_slash (fold_right (fun c s => String slash (c +:+ s))
                    EmptyString cs)) dir =
  dir ++ cs.
Proof.
  induction cs as [|c cs IH]; intros dir Hp.
  - cbn. rewrite app_nil_r. reflexivity.
  - apply Forall_cons in Hp as [Hc Hcs].
    specialize (IH (dir ++ [c]) Hcs). rewrite <- app_assoc in IH.
    cbn [app] in IH. rewrite <- IH. clear IH.
    cbn [fold_right split_slash]. rewrite Ascii.eqb_refl.
    cbn [fold_left step String.eqb orb].
    pose proof (step_proper dir c Hc) as Hstep.
    destruct Hc as [Hsplit _].
    destruct cs as [|c2 cs]; cbn [fold_right].
    + rewrite append_empty_r, Hsplit. cbn [fold_left split_slash].
      rewrite Hstep. reflexivity.
    + rewrite split_slash_append, Hsplit. cbn [app fold_left split_slash].
      rewrite Ascii.eqb_refl, Hstep. reflexivity.
Qed.

(** A directory is found again under the name [os.getcwd] gave it. *)
Lemma resolve_render dir from :
  Forall proper dir -> resolve from (render dir) = dir.
Proof.
  intros Hp. unfold resolve, render. destruct dir as [|c cs]; [reflexivity|].
  cbn [fold_right Text.startswith]. 
  change (Text.startswith "/" (String slash ?s)) with true.
  apply (resolve_components (c :: cs) [] Hp).
Qed.

End PathFacts.

(* ===================================================================== *)
(** * The per-file procedure *)
(* ===================================================================== *)

Module FileFacts.
Import TextFacts.

Lemma set_files_same st : set_files (files st) st = st.
Proof. destruct st. reflexivity. Qed.

Lemma path_exists_true st p c :
  files st !! locate st p = Some c -> OS.path_exists p st = Ok true st.
Proof.
  intros H. unfold OS.path_exists. rewrite H.
  rewrite bool_decide_eq_true_2 by eauto. reflexivity.
Qed.

Lemma path_exists_false st p :
  files st !! locate st p = None -> OS.path_exists p st = Ok false st.
Proof.
  intros H. unfold OS.path_exists. rewrite H.
  rewrite bool_decide_eq_false_2 by (intros [? ?]; discriminate).
  reflexivity.
Qed.




End FileFacts.

(* ===================================================================== *)
(** * Frame conditions *)
(* ===================================================================== *)

Module FrameFacts.

Lemma frame_ret {A} names (a : A) : frame names (ret a).
Proof. intros st. cbn. auto. Qed.

Lemma frame_raise {A} names e : frame names (@raise A e).
Proof. intros st. cbn. auto. Qed.

Lemma frame_bind {A B} names (c : M A) (k : A -> M B) :
  frame names c -> (forall a, frame names (k a)) ->
  frame names (bind c k).
Proof.
  intros Hc Hk st. unfold bind.
  destruct (Hc st) as (Hcwd & Hdirs & Hfiles).
  destruct (c st) as [a st1|e st1]; cbn [state_of] in *.
  - destruct (Hk a st1) as (Hcwd' & Hdirs' & Hfiles').
    split; [congruence|]. split; [congruence|].
    intros key Hkey. rewrite Hfiles'.
    + apply Hfiles, Hkey.
    + intros n Hn. unfold locate. rewrite Hcwd. apply Hkey, Hn.
  - auto.
Qed.

Lemma frame_bind_with {A B} names (c : M A) (k : A -> M B)
    (Q : A -> Prop) :
  frame names c ->
  (forall st a st', c st = Ok a st' -> Q a) ->
  (forall a, Q a -> frame names (k a)) ->
  frame names (bind c k).
Proof.
  intros Hc HQ Hk st. unfold bind.
  destruct (Hc st) as (Hcwd & Hdirs & Hfiles).
  destruct (c st) as [a st1|e st1] eqn:Hrun; cbn [state_of] in *.
  - destruct (Hk a (HQ _ _ _ Hrun) st1) as (Hcwd' & Hdirs' & Hfiles').
    split; [congruence|]. split; [congruence|].
    intros key Hkey. rewrite Hfiles'.
    + apply Hfiles, Hkey.
    + intros n Hn. unfold locate. rewrite Hcwd. apply Hkey, Hn.
  - auto.
Qed.

Lemma frame_path_exists names p : frame names (OS.path_exists p).
Proof. intros st. cbn. auto. Qed.

Lemma frame_readlines names p : frame names (OS.readlines p).
Proof.
  intros st. unfold OS.readlines.
  destruct (files st !! locate st p); cbn; auto.
Qed.

Lemma frame_read_text names p : frame names (OS.read_text p).
Proof.
  intros st. unfold OS.read_text.
  destruct (files st !! locate st p); cbn; auto.
Qed.

Lemma frame_write_text names p s : p ∈ names -> frame names (OS.write_text p s).
Proof.
  intros Hp st. cbn. split; [reflexivity|]. split; [reflexivity|].
  intros key Hkey. apply lookup_insert_ne, Hkey, Hp.
Qed.

Lemma frame_overwrite_text names p s :
  p ∈ names -> frame names (OS.overwrite_text p s).
Proof.
  intros Hp st. unfold OS.overwrite_text.
  destruct (files st !! locate st p); cbn; auto.
  split; [reflexivity|]. split; [reflexivity|].
  intros key Hkey. apply lookup_insert_ne, Hkey, Hp.
Qed.

Lemma frame_remove names p : p ∈ names -> frame names (OS.remove p).
Proof.
  intros Hp st. unfold OS.remove.
  destruct (files st !! locate st p); cbn; auto.
  split; [reflexivity|]. split; [reflexivity|].
  intros key Hkey. apply lookup_delete_ne, Hkey, Hp.
Qed.

Lemma frame_rename names p q :
  p ∈ names -> q ∈ names -> frame names (OS.rename p q).
Proof.
  intros Hp Hq st. unfold OS.rename.
  destruct (files st !! locate st p); cbn; auto.
  split; [reflexivity|]. split; [reflexivity|].
  intros key Hkey.
  rewrite lookup_insert_ne by apply Hkey, Hq.
  apply lookup_delete_ne, Hkey, Hp.
Qed.

Lemma frame_edit_file names p hs : p ∈ names -> frame names (edit_file p hs).
Proof.
  intros Hp. unfold edit_file. apply frame_bind.
  - apply frame_readlines.
  - intros content. destruct (Edit.patch_lines content hs).
    + apply frame_write_text, Hp.
    + apply frame_raise.
Qed.

(** One iteration touches the path of its patch and its target file. *)
Lemma frame_patch_one_file pf :
  frame [path pf; target_file pf] (patch_one_file pf).
Proof.
  assert (Hp : path pf ∈ [path pf; target_file pf]) by (left).
  assert (Hq : target_file pf ∈ [path pf; target_file pf])
    by (right; left).
  unfold patch_one_file. destruct (is_removed_file pf).
  { apply frame_bind; [apply frame_path_exists|].
    intros [|]; [apply frame_remove, Hp|apply frame_ret]. }
  apply (frame_bind_with _ _ _
           (fun r => r = None \/ r = Some (path pf) \/
                     r = Some (target_file pf))).
  - unfold rename_step. destruct (is_rename pf); [|apply frame_ret].
    apply frame_bind; [apply frame_path_exists|].
    intros [|]; [|apply frame_ret].
    apply frame_bind; [apply frame_rename; assumption|].
    intros _. apply frame_ret.
  - intros st r st'. unfold rename_step, bind, ret.
    destruct (is_rename pf); [|intros [= <- _]; auto].
    destruct (OS.path_exists (path pf) st) as [[|] st1|]; try discriminate.
    + destruct (OS.rename (path pf) (target_file pf) st1);
        [intros [= <- _]; auto|discriminate].
    + intros [= <- _]. auto.
  - intros r Hr.
    assert (Hcur : forall current, r = Some current ->
                     current ∈ [path pf; target_file pf]).
    { intros current ->. destruct Hr as [Hr|[Hr|Hr]];
        [discriminate| |]; injection Hr as ->; assumption. }
    destruct r as [current|]; [|apply frame_ret].
    specialize (Hcur current eq_refl).
    apply frame_bind.
    + unfold create_step. apply frame_bind; [apply frame_path_exists|].
      intros [|]; [apply frame_ret|].
      destruct (is_added_file pf); [|apply frame_ret].
      apply frame_bind; [apply frame_write_text, Hcur|].
      intros _. apply frame_ret.
    + intros [|]; [apply frame_edit_file, Hcur|apply frame_ret].
Qed.

Lemma frame_weaken {A} names names' (c : M A) :
  (forall n, n ∈ names -> n ∈ names') -> frame names c -> frame names' c.
Proof.
  intros Hsub Hc st. destruct (Hc st) as (H1 & H2 & H3).
  split; [exact H1|]. split; [exact H2|].
  intros key Hkey. apply H3. intros n Hn. apply Hkey, Hsub, Hn.
Qed.

(** The names a patch set may touch. *)
Lemma frame_for_each (ps : PatchSet) :
  frame (concat (map (fun pf => [path pf; target_file pf]) ps))
    (for_each patch_one_file ps).
Proof.
  induction ps as [|pf ps IH]; [apply frame_ret|].
  cbn [for_each map concat]. apply frame_bind.
  - eapply frame_weaken; [|apply frame_patch_one_file].
    intros n Hn. apply elem_of_app. left. exact Hn.
  - intros _. eapply frame_weaken; [|exact IH].
    intros n Hn. apply elem_of_app. right. exact Hn.
Qed.

(** A patch set that does not address [key] leaves it alone. *)
Lemma for_each_untouched (ps : PatchSet) (st : state) (key : list string) :
  Forall (fun pf => ~ addresses (cwd st) pf key) ps ->
  files (state_of (for_each patch_one_file ps st)) !! key = files st !! key.
Proof.
  intros Hps. destruct (frame_for_each ps st) as (_ & _ & H).
  apply H. intros n Hn. apply list_elem_of_In, in_concat in Hn.
  destruct Hn as (ns & Hns & Hn). apply in_map_iff in Hns.
  destruct Hns as (pf & <- & Hpf).
  rewrite Forall_forall in Hps. apply list_elem_of_In in Hpf.
  specialize (Hps pf Hpf). unfold addresses in Hps.
  destruct Hn as [<-|[<-|[]]]; unfold locate; tauto.
Qed.

Lemma frame_update_manifest `{L : Libs} u :
  frame [manifest_name] (update_manifest u).
Proof.
  unfold update_manifest. apply frame_bind; [apply frame_read_text|].
  intros text. destruct (json_load text) as [data|]; [|apply frame_raise].
  destruct (Json.setitem data _ _); [|apply frame_raise].
  apply frame_overwrite_text. left.
Qed.

(** From any state with the same directories, the process gets back to
    a working directory that is in order. *)
Lemma chdir_back st s :
  cwd_ok st -> dirs s = dirs st ->
  OS.chdir (Path.render (cwd st)) s = Ok tt (set_cwd (cwd st) s).
Proof.
  intros [Hin Hproper] Hdirs. unfold OS.chdir, locate.
  rewrite PathFacts.resolve_render by exact Hproper.
  rewrite Hdirs. destruct (decide (cwd st ∈ dirs st)); [reflexivity|tauto].
Qed.

(** Where the rewrite of the manifest raises, it has written nothing. *)
Lemma update_manifest_raise `{L : Libs} u st e st' :
  update_manifest u st = Raise e st' -> st' = st.
Proof.
  unfold update_manifest, bind, OS.read_text, raise.
  destruct (files st !! locate st manifest_name) eqn:Hf; [|congruence].
  destruct (json_load _); [|congruence].
  destruct (Json.setitem _ _ _); [|congruence].
  unfold OS.overwrite_text. rewrite Hf. congruence.
Qed.

(** The [try] block, step by step: where it ends, every patch was
    applied, then the manifest rewritten, then the directory left; where
    it raises, the manifest is as it was unless a patch addresses it. *)
Lemma apply_patch_try_spec `{L : Libs} u st :
  cwd_ok st ->
  let st0 := set_cwd (base_of u st) st in
  match apply_patch_try u (Path.render (cwd st)) st with
  | Ok _ st' =>
      dirs st' = dirs st /\
      exists ps st1 st2,
        parsed_patchset u st = Some ps /\
        for_each patch_one_file ps st0 = Ok tt st1 /\
        update_manifest u st1 = Ok tt st2 /\
        st' = set_cwd (cwd st) st2
  | Raise _ st' =>
      dirs st' = dirs st /\
      ((forall ps, parsed_patchset u st = Some ps ->
          Forall (fun pf => ~ addresses (base_of u st) pf
                                (manifest_key u st)) ps) ->
       files st' !! manifest_key u st = files st !! manifest_key u st)
  end.
Proof.
  intros Hok st0. unfold apply_patch_try, bind.
  unfold OS.chdir at 1. fold (base_of u st).
  destruct (decide (base_of u st ∈ dirs st)) as [Hbase|Hbase];
    [|split; [reflexivity|intros _; reflexivity]].
  fold st0. unfold OS.read_text at 1.
  assert (Hps : parsed_patchset u st =
                match files st0 !! locate st0
                        (Path.join (diff_dir u) (diff_filename u)) with
                | Some bytes =>
                    PatchSet_from_string (Text.universal_newlines bytes)
                | None => None
                end) by reflexivity.
  destruct (files st0 !! locate st0 _) as [bytes|];
    [|split; [reflexivity|intros _; reflexivity]].
  destruct (PatchSet_from_string (Text.universal_newlines bytes))
    as [ps|]; [|split; [reflexivity|intros _; reflexivity]].
  destruct (frame_for_each ps st0) as (Hcwd1 & Hdirs1 & _).
  pose proof (for_each_untouched ps st0 (manifest_key u st)) as Hframe1.
  destruct (for_each patch_one_file ps st0) as [[] st1|e st1] eqn:Hloop;
    cbn [state_of] in *;
    [|split; [exact Hdirs1|intros H; apply Hframe1, H, Hps]].
  destruct (frame_update_manifest u st1) as (Hcwd2 & Hdirs2 & _).
  destruct (update_manifest u st1) as [[] st2|e st2] eqn:Hman;
    cbn [state_of] in *.
  - rewrite (chdir_back st st2 Hok) by exact (eq_trans Hdirs2 Hdirs1).
    split; [exact (eq_trans Hdirs2 Hdirs1)|].
    exists ps, st1, st2. auto.
  - rewrite (update_manifest_raise u st1 e st2 Hman).
    split; [exact Hdirs1|].
    intros H. apply Hframe1, H, Hps.
Qed.

(** Where the rewrite of the manifest ends, the manifest holds the data
    it held with the new version, as [json.dump] prints them. *)
Lemma update_manifest_ok `{L : Libs} u st st' :
  update_manifest u st = Ok tt st' ->
  exists bytes data data',
    files st !! locate st manifest_name = Some bytes /\
    json_load (Text.universal_newlines bytes) = Some data /\
    Json.setitem data "version" (Json.of_version (latest_version u))
      = Some data' /\
    st' = set_files (<[locate st manifest_name := json_dump_indent4 data']>
                       (files st)) st.
Proof.
  unfold update_manifest, bind, OS.read_text, raise.
  destruct (files st !! locate st manifest_name) as [bytes|] eqn:Hf;
    [|discriminate].
  destruct (json_load _) as [data|] eqn:Hload; [|discriminate].
  destruct (Json.setitem _ _ _) as [data'|] eqn:Hset; [|discriminate].
  unfold OS.overwrite_text. rewrite Hf. intros [= <-].
  exists bytes, data, data'. auto.
Qed.

Lemma for_each_app {A} (f : A -> M unit) (xs ys : list A) (st : state) :
  for_each f (xs ++ ys) st =
  match for_each f xs st with
  | Ok _ st' => for_each f ys st'
  | Raise e st' => Raise e st'
  end.
Proof.
  revert st. induction xs as [|x xs IH]; intros st; [reflexivity|].
  cbn [app for_each]. unfold bind. destruct (f x st); [apply IH|reflexivity].
Qed.

(** An exception in the loop over the patch set makes [apply_patch] return
    [False], in the state the exception left, back in the directory of the
    caller. *)
Lemma loop_raise_returns_false `{L : Libs} u st ps e st1 :
  cwd_ok st ->
  base_of u st ∈ dirs st ->
  parsed_patchset u st = Some ps ->
  for_each patch_one_file ps (set_cwd (base_of u st) st) = Raise e st1 ->
  apply_patch u st = (Returned false, set_cwd (cwd st) st1).
Proof.
  intros Hok Hbase Hps Hloop.
  assert (Hdirs : dirs st1 = dirs st).
  { destruct (frame_for_each ps (set_cwd (base_of u st) st)) as (_ & H & _).
    rewrite Hloop in H. exact H. }
  assert (Htry : apply_patch_try u (Path.render (cwd st)) st = Raise e st1).
  { unfold apply_patch_try, bind. unfold OS.chdir at 1.
    fold (base_of u st).
    destruct (decide (base_of u st ∈ dirs st)); [|tauto].
    unfold parsed_patchset in Hps. unfold OS.read_text at 1.
    change (locate (set_cwd (base_of u st) st)
              (Path.join (diff_dir u) (diff_filename u)))
      with (Path.resolve (base_of u st)
              (Path.join (diff_dir u) (diff_filename u))).
    change (files (set_cwd (base_of u st) st)) with (files st).
    destruct (files st !! _) as [bytes|]; [|discriminate].
    rewrite Hps, Hloop. reflexivity. }
  unfold apply_patch, OS.getcwd. rewrite Htry. cbn [fst snd].
  rewrite (chdir_back st st1 Hok Hdirs). reflexivity.
Qed.

End FrameFacts.

(* ===================================================================== *)
(** * The claims of the specification *)
(* ===================================================================== *)









(** The order matters: popping the two removed lines of a hunk from the
    front deletes a wrong line. *)
Example forward_removal_corrupts :
  let content := [Text.ln "a"; Text.ln "b"; Text.ln "c"; Text.ln "d"] in
  let removed := [mkLine Removed (Text.ln "b") (Some 2) None;
                  mkLine Removed (Text.ln "c") (Some 3) None] in
  PyList.fold_raise Edit.pop_removed (rev removed) content
    = Some [Text.ln "a"; Text.ln "d"] /\
  PyList.fold_raise Edit.pop_removed removed content
    = Some [Text.ln "a"; Text.ln "c"].
Proof. vm_compute. split; reflexivity. Qed.






(** A removed line numbered 0 is not refused either: [pop(-1)] takes the
    last line. *)
Example removal_at_position_zero :
  Edit.pop_removed [Text.ln "a"; Text.ln "b"]
    (mkLine Removed (Text.ln "x") (Some 0) None) = Some [Text.ln "a"].
Proof. reflexivity. Qed.

(** C6, as the specification states it, fails: the patch set may contain a
    patch of the manifest itself.  Here the first patch replaces the line of
    [interface.json] that holds the version, the second removes line 5 of a
    file of one line; [apply_patch] returns [False], and the manifest holds
    a version other than before. *)
Lemma manifest_changed_by_failed_apply :
  let st :=
    Demo.machine Demo.home
      [("patch/v1_v2.diff", Demo.diff_bump_then_fail);
       ("interface.json", Demo.manifest "v1");
       ("notes.txt", Text.ln "only")] in
  let r := apply_patch Demo.updater st in
  parsed_patchset Demo.updater st
    = Some [Demo.bump_manifest; Demo.remove_line_5] /\
  fst r = Returned false /\
  manifest_version Demo.updater st = Some (JString "v1") /\
  manifest_version Demo.updater (snd r) = Some (JString "v2").
Proof. vm_compute. repeat split; reflexivity. Qed.

(** C6, amended.  [apply_patch] rewrites the version of the manifest only
    after every patch of the set has been applied: where it returns [True],
    the loop over the patch set has ended without an exception and the
    manifest then holds its data with the version replaced by the latest
    one.  Where it returns [False], the manifest file is unchanged provided
    no patch of the set addresses the manifest file itself. *)
Theorem manifest_rewritten_after_all_patches `{L : Libs} (u : Updater)
    (st : state) :
  cwd_ok st ->
  let r := apply_patch u st in
  let key := manifest_key u st in
  (fst r = Returned true ->
   exists (ps : PatchSet) (st1 : state) (bytes : string) (data data' : json),
     parsed_patchset u st = Some ps /\
     for_each patch_one_file ps (set_cwd (base_of u st) st) = Ok tt st1 /\
     files st1 !! key = Some bytes /\
     json_load (Text.universal_newlines bytes) = Some data /\
     Json.setitem data "version" (Json.of_version (latest_version u))
       = Some data' /\
     files (snd r) = <[key := json_dump_indent4 data']> (files st1)) /\
  (fst r = Returned false ->
   (forall ps, parsed_patchset u st = Some ps ->
      Forall (fun pf => ~ addresses (base_of u st) pf key) ps) ->
   files (snd r) !! key = files st !! key).
Proof.
  intros Hok r key. subst r. unfold apply_patch, OS.getcwd.
  pose proof (FrameFacts.apply_patch_try_spec u st Hok) as Hspec.
  cbv zeta in Hspec.
  destruct (apply_patch_try u (Path.render (cwd st)) st) as [[] st'|e st'];
    cbn [fst snd]; destruct Hspec as [Hdirs Hspec];
    rewrite (FrameFacts.chdir_back st st' Hok Hdirs); cbn [fst snd].
  - split; [intros _|discriminate].
    destruct Hspec as (ps & st1 & st2 & Hps & Hloop & Hman & ->).
    apply FrameFacts.update_manifest_ok in Hman
      as (bytes & data & data' & Hf & Hload & Hset & ->).
    destruct (FrameFacts.frame_for_each ps (set_cwd (base_of u st) st))
      as (Hcwd & _ & _).
    rewrite Hloop in Hcwd. cbn [state_of set_cwd cwd] in Hcwd.
    assert (Hkey : locate st1 manifest_name = key)
      by (unfold locate, key, manifest_key; rewrite Hcwd; reflexivity).
    rewrite Hkey in Hf. exists ps, st1, bytes, data, data'.
    repeat split; try assumption.
    cbn [files set_cwd set_files]. rewrite Hkey. reflexivity.
  - split; [discriminate|intros _ Hps].
    cbn. apply Hspec, Hps.
Qed.

(** A run that fails at a patch of [notes.txt] and leaves the manifest as
    it was. *)
Lemma manifest_rewritten_after_all_patches_witness :
  let st :=
    Demo.machine Demo.home
      [("patch/v1_v2.diff", Demo.diff_fail);
       ("interface.json", Demo.manifest "v1");
       ("notes.txt", Text.ln "only")] in
  fst (apply_patch Demo.updater st) = Returned false /\
  Demo.content (snd (apply_patch Demo.updater st)) "interface.json"
    = Some (Demo.manifest "v1").
Proof.
  intros st.
  assert (Hok : cwd_ok st).
  { split; [vm_compute; set_solver|].
    repeat constructor; cbn; discriminate. }
  destruct (manifest_rewritten_after_all_patches Demo.updater st Hok)
    as [_ Hfail].
  assert (Hret : fst (apply_patch Demo.updater st) = Returned false)
    by (vm_compute; reflexivity).
  split; [exact Hret|].
  unfold Demo.content.
  change (Path.resolve Demo.app "interface.json")
    with (manifest_key Demo.updater st).
  rewrite (Hfail Hret); [vm_compute; reflexivity|].
  intros ps Hps. vm_compute in Hps. injection Hps as <-.
  repeat constructor. intros [H|H]; vm_compute in H; discriminate.
Defined.

(** A run that succeeds: scenario A is applied, then the manifest holds the
    latest version. *)
Example apply_patch_success :
  let st :=
    Demo.machine Demo.home
      [("patch/v1_v2.diff", Demo.diff_scenario_a);
       ("interface.json", Demo.manifest "v1");
       ("abc.txt", Text.writelines Scenario.a_source)] in
  let r := apply_patch Demo.updater st in
  fst r = Returned true /\
  Demo.content (snd r) "abc.txt"
    = Some (Text.writelines Scenario.a_expected) /\
  manifest_version Demo.updater (snd r) = Some (JString "v2").
Proof. vm_compute. repeat split; reflexivity. Qed.

(** C7.  A patch that removes a file ([is_removed_file]) deletes the file at
    its path when it exists and applies no hunks; when the file does not
    exist the iteration ends without an error and without a change, so the
    same patch applied again to the result succeeds. *)
Theorem removed_file_is_deleted_and_tolerated (pf : PatchedFile) (st : state) :
  is_removed_file pf = true ->
  let st' := set_files (delete (locate st (path pf)) (files st)) st in
  patch_one_file pf st = Ok tt st' /\
  files st' !! locate st (path pf) = None /\
  (files st !! locate st (path pf) = None -> st' = st) /\
  patch_one_file pf st' = Ok tt st'.
Proof.
  intros Hrm st'.
  assert (Hgone : files st' !! locate st (path pf) = None)
    by apply lookup_delete_eq.
  assert (Hskip : forall s, files s !! locate s (path pf) = None ->
                            patch_one_file pf s = Ok tt s).
  { intros s Hs. unfold patch_one_file, bind. rewrite Hrm.
    rewrite FileFacts.path_exists_false by exact Hs. reflexivity. }
  repeat split.
  - destruct (files st !! locate st (path pf)) as [c|] eqn:Hf.
    + unfold patch_one_file, bind. rewrite Hrm.
      rewrite (FileFacts.path_exists_true _ _ _ Hf).
      unfold OS.remove. rewrite Hf. reflexivity.
    + rewrite (Hskip st Hf). subst st'.
      rewrite delete_id by exact Hf.
      rewrite FileFacts.set_files_same. reflexivity.
  - exact Hgone.
  - intros Hf. subst st'. rewrite delete_id by exact Hf.
    apply FileFacts.set_files_same.
  - apply Hskip. exact Hgone.
Qed.

(** Scenario B: [foo.txt] is deleted, and the same patch applied to the
    result ends without an error. *)
Lemma removed_file_witness :
  let st := Demo.machine Demo.app [("foo.txt", Text.ln "bar")] in
  let st' := set_files (delete (locate st "foo.txt") (files st)) st in
  Demo.content st "foo.txt" = Some (Text.ln "bar") /\
  patch_one_file Demo.remove_foo st = Ok tt st' /\
  Demo.content st' "foo.txt" = None /\
  patch_one_file Demo.remove_foo st' = Ok tt st'.
Proof.
  intros st st'.
  destruct (removed_file_is_deleted_and_tolerated Demo.remove_foo st
              eq_refl) as (H1 & H2 & _ & H4).
  split; [reflexivity|]. split; [exact H1|]. split; [exact H2|exact H4].
Defined.




(** [str.replace] on small inputs. *)
Example replace_examples :
  Text.replace "assets/" EmptyString "a/assets/resource/x" = "a/resource/x" /\
  Text.replace "aa" "b" "aaa" = "ba" /\
  Text.replace "assets/" EmptyString "assets/assets/" = EmptyString /\
  Text.replace "assets/" EmptyString "assets" = "assets".
Proof. vm_compute. repeat split; reflexivity. Qed.

(** C9: the code does not do what the claim says.  [process_diff_content]
    removes every occurrence of [assets/] from the text of the diff, in
    header lines and in body lines alike.  In this diff the added line
    differs from the removed one by the words [assets/]; in the stored diff
    the two are the same, so the change the diff describes is lost. *)
Theorem normalization_rewrites_body_lines :
  let st := Demo.machine Demo.home [] in
  let r := process_diff_content Demo.updater
             Demo.diff_with_assets_in_body st in
  fst (fst r) = true /\
  diff_filename (snd (fst r)) = "v1_v2.diff" /\
  Demo.content (snd r) "patch/v1_v2.diff"
    = Some Demo.diff_after_processing /\
  Demo.diff_after_processing
    = Text.replace "assets/" EmptyString Demo.diff_with_assets_in_body /\
  Text.split_lines Demo.diff_with_assets_in_body
    = [Text.ln "--- a/assets/resource/readme.txt";
       Text.ln "+++ b/assets/resource/readme.txt";
       Text.ln "@@ -1 +1 @@";
       Text.ln "-icons are in img/";
       Text.ln "+icons are in assets/img/"] /\
  Text.split_lines Demo.diff_after_processing
    = [Text.ln "--- a/resource/readme.txt";
       Text.ln "+++ b/resource/readme.txt";
       Text.ln "@@ -1 +1 @@";
       Text.ln "-icons are in img/";
       Text.ln "+icons are in img/"].
Proof. vm_compute. repeat split; reflexivity. Qed.

(** C10.  Called in a process whose working directory is in order,
    [apply_patch] returns (no exception escapes it), with [True] or with
    [False], and the working directory after the call is the one at the
    time of the call. *)
Theorem apply_patch_restores_cwd `{L : Libs} (u : Updater) (st : state) :
  cwd_ok st ->
  cwd (snd (apply_patch u st)) = cwd st /\
  exists b : bool, fst (apply_patch u st) = Returned b.
Proof.
  intros Hok. unfold apply_patch, OS.getcwd.
  pose proof (FrameFacts.apply_patch_try_spec u st Hok) as Hspec.
  cbv zeta in Hspec.
  destruct (apply_patch_try u (Path.render (cwd st)) st) as [[] st'|e st'];
    cbn [fst snd].
  - destruct Hspec as [Hdirs _].
    rewrite (FrameFacts.chdir_back st st' Hok Hdirs). cbn. eauto.
  - destruct Hspec as [Hdirs _].
    rewrite (FrameFacts.chdir_back st st' Hok Hdirs). cbn. eauto.
Qed.

(** A run that fails and a run that succeeds, both started in [/home] with
    the base directory [/home/app]. *)
Lemma apply_patch_restores_cwd_witness :
  let failing :=
    Demo.machine Demo.home
      [("patch/v1_v2.diff", Demo.diff_fail);
       ("interface.json", Demo.manifest "v1");
       ("notes.txt", Text.ln "only")] in
  let passing :=
    Demo.machine Demo.home
      [("patch/v1_v2.diff", Demo.diff_scenario_a);
       ("interface.json", Demo.manifest "v1");
       ("abc.txt", Text.writelines Scenario.a_source)] in
  (fst (apply_patch Demo.updater failing) = Returned false /\
   cwd (snd (apply_patch Demo.updater failing)) = Demo.home) /\
  (fst (apply_patch Demo.updater passing) = Returned true /\
   cwd (snd (apply_patch Demo.updater passing)) = Demo.home).
Proof.
  intros failing passing.
  assert (Hf : cwd_ok failing).
  { split; [vm_compute; set_solver|].
    repeat constructor; cbn; discriminate. }
  assert (Hp : cwd_ok passing).
  { split; [vm_compute; set_solver|].
    repeat constructor; cbn; discriminate. }
  destruct (apply_patch_restores_cwd (L := Demo.libs) Demo.updater
              failing Hf) as [Hcwd1 _].
  destruct (apply_patch_restores_cwd (L := Demo.libs) Demo.updater
              passing Hp) as [Hcwd2 _].
  split; (split; [vm_compute; reflexivity|assumption]).
Defined.

(* ===================================================================== *)
(** * More about the patch engine: proofs *)
(* ===================================================================== *)

Module RunFacts.

Lemma set_cwd_back st dir : set_cwd (cwd st) (set_cwd dir st) = st.
Proof. destruct st. reflexivity. Qed.

Lemma set_cwd_same st : set_cwd (cwd st) st = st.
Proof. destruct st. reflexivity. Qed.

(** The [try] block up to the loop over the patch set. *)
Lemma apply_patch_try_unfold `{L : Libs} u o st ps :
  base_of u st ∈ dirs st ->
  parsed_patchset u st = Some ps ->
  apply_patch_try u o st =
  match for_each patch_one_file ps (set_cwd (base_of u st) st) with
  | Ok _ st1 =>
      match update_manifest u st1 with
      | Ok _ st2 => OS.chdir o st2
      | Raise e st2 => Raise e st2
      end
  | Raise e st1 => Raise e st1
  end.
Proof.
  intros Hbase Hps. unfold apply_patch_try, bind. unfold OS.chdir at 1.
  fold (base_of u st).
  destruct (decide (base_of u st ∈ dirs st)); [|tauto].
  unfold parsed_patchset in Hps. unfold OS.read_text at 1.
  change (locate (set_cwd (base_of u st) st)
            (Path.join (diff_dir u) (diff_filename u)))
    with (Path.resolve (base_of u st)
            (Path.join (diff_dir u) (diff_filename u))).
  change (files (set_cwd (base_of u st) st)) with (files st).
  destruct (files st !! _) as [bytes|]; [|discriminate].
  rewrite Hps. reflexivity.
Qed.

(** Without a base directory or without a parsed patch set the [try] block
    raises before it has written anything. *)
Lemma apply_patch_try_early `{L : Libs} u o st :
  base_of u st ∉ dirs st \/ parsed_patchset u st = None ->
  exists e st', apply_patch_try u o st = Raise e st' /\
                set_cwd (cwd st) st' = st.
Proof.
  intros H. unfold apply_patch_try, bind. unfold OS.chdir at 1.
  fold (base_of u st).
  destruct (decide (base_of u st ∈ dirs st)) as [Hin|Hout].
  - destruct H as [H|H]; [tauto|].
    unfold parsed_patchset in H. unfold OS.read_text at 1.
    change (locate (set_cwd (base_of u st) st)
              (Path.join (diff_dir u) (diff_filename u)))
      with (Path.resolve (base_of u st)
              (Path.join (diff_dir u) (diff_filename u))).
    change (files (set_cwd (base_of u st) st)) with (files st).
    destruct (files st !! _) as [bytes|].
    + rewrite H. eexists _, _. split; [reflexivity|apply set_cwd_back].
    + eexists _, _. split; [reflexivity|apply set_cwd_back].
  - eexists _, _. split; [reflexivity|apply set_cwd_same].
Qed.

End RunFacts.

Module JsonFacts.

Lemma assoc_get_set_eq k v ms :
  Json.assoc_get k (Json.assoc_set k v ms) = Some v.
Proof.
  induction ms as [|[k' v'] ms IH]; cbn.
  - rewrite String.eqb_refl. reflexivity.
  - destruct (String.eqb k k') eqn:Hk; cbn;
      rewrite ?String.eqb_refl, ?Hk; auto.
Qed.

Lemma assoc_get_set_ne k k' v ms :
  k' <> k ->
  Json.assoc_get k' (Json.assoc_set k v ms) = Json.assoc_get k' ms.
Proof.
  intros Hne. induction ms as [|[k0 v0] ms IH]; cbn.
  - apply String.eqb_neq in Hne. rewrite Hne. reflexivity.
  - destruct (String.eqb k k0) eqn:Hk; cbn.
    + apply String.eqb_eq in Hk. subst k0.
      apply String.eqb_neq in Hne. rewrite Hne. reflexivity.
    + destruct (String.eqb k' k0); auto.
Qed.

(** [d[k] = v] keeps the keys of [d] in their order; a new key comes
    last. *)
Lemma assoc_set_keys k v ms :
  map fst (Json.assoc_set k v ms) =
  if bool_decide (k ∈ map fst ms) then map fst ms else map fst ms ++ [k].
Proof.
  induction ms as [|[k0 v0] ms IH]; [reflexivity|].
  cbn [Json.assoc_set map fst]. destruct (String.eqb k k0) eqn:Hk.
  - apply String.eqb_eq in Hk. subst k0.
    rewrite bool_decide_eq_true_2 by left. reflexivity.
  - apply String.eqb_neq in Hk. cbn [map fst]. rewrite IH.
    destruct (bool_decide (k ∈ map fst ms)) eqn:Hin.
    + apply bool_decide_eq_true in Hin.
      rewrite bool_decide_eq_true_2 by (right; exact Hin). reflexivity.
    + apply bool_decide_eq_false in Hin.
      rewrite bool_decide_eq_false_2; [reflexivity|].
      intros H. apply elem_of_cons in H as [H|H]; tauto.
Qed.

End JsonFacts.

(** X1.  Where the base directory does not exist, the stored diff is
    missing or the parser refuses its text, [apply_patch] returns [False]
    and leaves the machine exactly as it was: no file is touched before the
    patch set is parsed. *)
Theorem apply_patch_without_patchset `{L : Libs} (u : Updater) (st : state) :
  cwd_ok st ->
  base_of u st ∉ dirs st \/ parsed_patchset u st = None ->
  apply_patch u st = (Returned false, st).
Proof.
  intros Hok H. unfold apply_patch, OS.getcwd.
  destruct (RunFacts.apply_patch_try_early u (Path.render (cwd st)) st H)
    as (e & st' & Htry & Hback).
  rewrite Htry. cbn [fst snd].
  assert (Hdirs : dirs st' = dirs st) by exact (f_equal dirs Hback).
  rewrite (FrameFacts.chdir_back st st' Hok Hdirs), Hback. reflexivity.
Qed.

(** No diff has been stored. *)
Lemma apply_patch_without_patchset_witness :
  let st := Demo.machine Demo.home
              [("interface.json", Demo.manifest "v1")] in
  apply_patch Demo.updater st = (Returned false, st).
Proof.
  intros st.
  apply (apply_patch_without_patchset Demo.updater st).
  - split; [vm_compute; set_solver|].
    repeat constructor; cbn; discriminate.
  - right. reflexivity.
Defined.

(** X2.  The run ends at the first patch that raises: [apply_patch] returns
    [False] in the state that patch left, so the patches before it stay
    applied (there is no rollback), the patches after it are not applied
    and the manifest is not rewritten. *)
Theorem first_failure_stops_the_run `{L : Libs} (u : Updater)
    (st st1 st2 : state) (ps1 ps2 : PatchSet) (pf : PatchedFile) (e : exn) :
  cwd_ok st ->
  base_of u st ∈ dirs st ->
  parsed_patchset u st = Some (ps1 ++ pf :: ps2) ->
  for_each patch_one_file ps1 (set_cwd (base_of u st) st) = Ok tt st1 ->
  patch_one_file pf st1 = Raise e st2 ->
  apply_patch u st = (Returned false, set_cwd (cwd st) st2).
Proof.
  intros Hok Hbase Hps Hloop Hpf.
  apply (FrameFacts.loop_raise_returns_false u st (ps1 ++ pf :: ps2) e st2
           Hok Hbase Hps).
  rewrite FrameFacts.for_each_app, Hloop. cbn [for_each]. unfold bind.
  rewrite Hpf. reflexivity.
Qed.

(** The manifest is patched, then the patch of [notes.txt] raises: the
    patched manifest stays. *)
Lemma first_failure_stops_the_run_witness :
  let st :=
    Demo.machine Demo.home
      [("patch/v1_v2.diff", Demo.diff_bump_then_fail);
       ("interface.json", Demo.manifest "v1");
       ("notes.txt", Text.ln "only")] in
  apply_patch Demo.updater st =
    (Returned false,
     Demo.machine Demo.home
       [("patch/v1_v2.diff", Demo.diff_bump_then_fail);
        ("interface.json", Demo.manifest "v2");
        ("notes.txt", Text.ln "only")]).
Proof.
  intros st.
  rewrite (first_failure_stops_the_run Demo.updater st
             (state_of (patch_one_file Demo.bump_manifest
                          (set_cwd Demo.app st)))
             (state_of (patch_one_file Demo.bump_manifest
                          (set_cwd Demo.app st)))
             [Demo.bump_manifest] [] Demo.remove_line_5 IndexError).
  - vm_compute. reflexivity. 
  - split; [vm_compute; set_solver|].
    repeat constructor; cbn; discriminate.
  - vm_compute; set_solver.
  - vm_compute. reflexivity.
  - vm_compute. reflexivity.
  - vm_compute. reflexivity.
Defined.

Module ManifestFacts.

Lemma update_manifest_unusable `{L : Libs} u st :
  manifest_unusable st -> exists e, update_manifest u st = Raise e st.
Proof.
  unfold manifest_unusable, update_manifest, bind, OS.read_text, raise.
  destruct (files st !! locate st manifest_name) as [bytes|];
    [|intros _; eauto].
  destruct (json_load (Text.universal_newlines bytes)) as [data|];
    [|intros _; eauto].
  destruct data; intros H; try (cbn [Json.setitem]; eauto); contradiction.
Qed.

Lemma update_manifest_object `{L : Libs} u st bytes ms :
  files st !! locate st manifest_name = Some bytes ->
  json_load (Text.universal_newlines bytes) = Some (JObject ms) ->
  update_manifest u st =
  Ok tt (set_files
           (<[locate st manifest_name :=
                json_dump_indent4
                  (JObject (Json.assoc_set "version"
                              (Json.of_version (latest_version u)) ms))]>
              (files st)) st).
Proof.
  intros Hf Hload. unfold update_manifest, bind, OS.read_text.
  rewrite Hf, Hload. cbn [Json.setitem]. unfold OS.overwrite_text.
  rewrite Hf. reflexivity.
Qed.

(** During the loop the working directory is the base directory. *)
Lemma loop_cwd ps st st1 :
  for_each patch_one_file ps st = Ok tt st1 ->
  cwd st1 = cwd st /\ dirs st1 = dirs st.
Proof.
  intros H. destruct (FrameFacts.frame_for_each ps st) as (Hc & Hd & _).
  rewrite H in Hc, Hd. auto.
Qed.

(** Every patch applied and the manifest rewritten: [apply_patch] returns
    [True] in the state the rewrite left, back in the caller's directory. *)
Lemma apply_patch_all_applied `{L : Libs} u st ps st1 bytes ms :
  cwd_ok st ->
  base_of u st ∈ dirs st ->
  parsed_patchset u st = Some ps ->
  for_each patch_one_file ps (set_cwd (base_of u st) st) = Ok tt st1 ->
  files st1 !! manifest_key u st = Some bytes ->
  json_load (Text.universal_newlines bytes) = Some (JObject ms) ->
  apply_patch u st =
    (Returned true,
     set_cwd (cwd st)
       (set_files
          (<[manifest_key u st :=
               json_dump_indent4
                 (JObject (Json.assoc_set "version"
                             (Json.of_version (latest_version u)) ms))]>
             (files st1)) st1)).
Proof.
  intros Hok Hbase Hps Hloop Hf Hload.
  destruct (loop_cwd _ _ _ Hloop) as [Hcwd Hdirs].
  assert (Hkey : locate st1 manifest_name = manifest_key u st)
    by (unfold locate, manifest_key; rewrite Hcwd; reflexivity).
  rewrite <- Hkey in Hf.
  unfold apply_patch, OS.getcwd.
  rewrite (RunFacts.apply_patch_try_unfold u _ st ps Hbase Hps), Hloop.
  rewrite (update_manifest_object u st1 bytes ms Hf Hload).
  rewrite Hkey.
  set (st2 := set_files _ st1).
  rewrite (FrameFacts.chdir_back st st2 Hok Hdirs). cbn [fst snd].
  rewrite (FrameFacts.chdir_back st (set_cwd (cwd st) st2) Hok Hdirs).
  reflexivity.
Qed.

Lemma update_manifest_inv `{L : Libs} u st st2 :
  update_manifest u st = Ok tt st2 ->
  exists bytes ms,
    files st !! locate st manifest_name = Some bytes /\
    json_load (Text.universal_newlines bytes) = Some (JObject ms).
Proof.
  intros H.
  destruct (files st !! locate st manifest_name) as [bytes|] eqn:Hf.
  - destruct (json_load (Text.universal_newlines bytes)) as [data|] eqn:Hl.
    + destruct data as [| | | | |ms]; try solve
        [destruct (update_manifest_unusable u st) as [e He];
         [unfold manifest_unusable; rewrite Hf, Hl; exact I|congruence]].
      eauto.
    + destruct (update_manifest_unusable u st) as [e He];
        [unfold manifest_unusable; rewrite Hf, Hl; exact I|congruence].
  - destruct (update_manifest_unusable u st) as [e He];
      [unfold manifest_unusable; rewrite Hf; exact I|congruence].
Qed.

Lemma apply_patch_try_no_base `{L : Libs} u o st :
  base_of u st ∉ dirs st ->
  apply_patch_try u o st = Raise FileNotFoundError st.
Proof.
  intros Hbase. unfold apply_patch_try, bind. unfold OS.chdir at 1.
  fold (base_of u st).
  destruct (decide (base_of u st ∈ dirs st)); [tauto|reflexivity].
Qed.

(** [apply_patch] returns [True] only after every patch was applied and
    the manifest, a JSON object, was rewritten. *)
Lemma apply_patch_true `{L : Libs} u st :
  cwd_ok st ->
  fst (apply_patch u st) = Returned true ->
  exists ps st1 bytes ms,
    base_of u st ∈ dirs st /\
    parsed_patchset u st = Some ps /\
    for_each patch_one_file ps (set_cwd (base_of u st) st) = Ok tt st1 /\
    files st1 !! manifest_key u st = Some bytes /\
    json_load (Text.universal_newlines bytes) = Some (JObject ms).
Proof.
  intros Hok Htrue.
  destruct (decide (base_of u st ∈ dirs st)) as [Hbase|Hbase].
  - pose proof (FrameFacts.apply_patch_try_spec u st Hok) as Hspec.
    cbv zeta in Hspec. unfold apply_patch, OS.getcwd in Htrue.
    destruct (apply_patch_try u (Path.render (cwd st)) st) as [[] st'|e st'].
    + destruct Hspec as (_ & ps & st1 & st2 & Hps & Hloop & Hm & _).
      destruct (update_manifest_inv u st1 st2 Hm) as (bytes & ms & Hf & Hl).
      destruct (loop_cwd _ _ _ Hloop) as [Hcwd _].
      exists ps, st1, bytes, ms. repeat split; try assumption.
      unfold locate in Hf. rewrite Hcwd in Hf. exact Hf.
    + destruct Hspec as [Hdirs _]. cbn [fst snd] in Htrue.
      rewrite (FrameFacts.chdir_back st st' Hok Hdirs) in Htrue.
      discriminate.
  - exfalso. unfold apply_patch, OS.getcwd in Htrue.
    rewrite (apply_patch_try_no_base u _ st Hbase) in Htrue.
    cbn [fst snd] in Htrue.
    rewrite (FrameFacts.chdir_back st st Hok eq_refl) in Htrue.
    discriminate.
Qed.

End ManifestFacts.

(** X3.  Where every patch has been applied and the manifest then cannot be
    rewritten (it is missing, is not JSON, or is not a JSON object),
    [apply_patch] returns [False] although the tree is fully patched: the
    state is the one the loop left. *)
Theorem unusable_manifest_fails_after_patching `{L : Libs} (u : Updater)
    (st st1 : state) (ps : PatchSet) :
  cwd_ok st ->
  base_of u st ∈ dirs st ->
  parsed_patchset u st = Some ps ->
  for_each patch_one_file ps (set_cwd (base_of u st) st) = Ok tt st1 ->
  manifest_unusable st1 ->
  apply_patch u st = (Returned false, set_cwd (cwd st) st1).
Proof.
  intros Hok Hbase Hps Hloop Hbad.
  destruct (ManifestFacts.update_manifest_unusable u st1 Hbad) as [e He].
  destruct (ManifestFacts.loop_cwd _ _ _ Hloop) as [_ Hdirs].
  unfold apply_patch, OS.getcwd.
  rewrite (RunFacts.apply_patch_try_unfold u _ st ps Hbase Hps), Hloop, He.
  cbn [fst snd]. rewrite (FrameFacts.chdir_back st st1 Hok Hdirs).
  reflexivity.
Qed.

(** Scenario A is applied, but there is no manifest. *)
Lemma unusable_manifest_witness :
  let st :=
    Demo.machine Demo.home
      [("patch/v1_v2.diff", Demo.diff_scenario_a);
       ("abc.txt", Text.writelines Scenario.a_source)] in
  apply_patch Demo.updater st =
    (Returned false,
     Demo.machine Demo.home
       [("patch/v1_v2.diff", Demo.diff_scenario_a);
        ("abc.txt", Text.writelines Scenario.a_expected)]).
Proof.
  intros st.
  rewrite (unusable_manifest_fails_after_patching Demo.updater st
             (state_of (for_each patch_one_file
                          [Diff.modified_file "abc.txt" Scenario.a_script]
                          (set_cwd Demo.app st)))
             [Diff.modified_file "abc.txt" Scenario.a_script]).
  - vm_compute. reflexivity.
  - split; [vm_compute; set_solver|].
    repeat constructor; cbn; discriminate.
  - vm_compute; set_solver.
  - vm_compute. reflexivity.
  - vm_compute. reflexivity.
  - vm_compute. exact I.
Defined.

(** X4.  Where every patch has been applied and the manifest holds a JSON
    object, [apply_patch] returns [True], back in the directory of the
    caller, and the manifest is the text [json.dump] prints for the object
    whose member [version] is the latest version; every other member is as
    it was, and the members keep their order. *)
Theorem successful_run `{L : Libs} (u : Updater) (st st1 : state)
    (ps : PatchSet) (bytes : string) (ms : list (string * json)) :
  cwd_ok st ->
  base_of u st ∈ dirs st ->
  parsed_patchset u st = Some ps ->
  for_each patch_one_file ps (set_cwd (base_of u st) st) = Ok tt st1 ->
  files st1 !! manifest_key u st = Some bytes ->
  json_load (Text.universal_newlines bytes) = Some (JObject ms) ->
  let ms' := Json.assoc_set "version" (Json.of_version (latest_version u)) ms in
  apply_patch u st =
    (Returned true,
     set_cwd (cwd st)
       (set_files (<[manifest_key u st := json_dump_indent4 (JObject ms')]>
                     (files st1)) st1)) /\
  Json.assoc_get "version" ms' = Some (Json.of_version (latest_version u)) /\
  (forall k, k <> "version" -> Json.assoc_get k ms' = Json.assoc_get k ms) /\
  map fst ms' =
    (if bool_decide ("version" ∈ map fst ms) then map fst ms
     else map fst ms ++ ["version"]).
Proof.
  intros Hok Hbase Hps Hloop Hf Hload ms'.
  repeat split.
  - apply (ManifestFacts.apply_patch_all_applied u st ps st1 bytes ms); assumption.
  - apply JsonFacts.assoc_get_set_eq.
  - intros k Hk. apply JsonFacts.assoc_get_set_ne, Hk.
  - apply JsonFacts.assoc_set_keys.
Qed.

(** Scenario A is applied and the version goes from v1 to v2. *)
Lemma successful_run_witness :
  let st :=
    Demo.machine Demo.home
      [("patch/v1_v2.diff", Demo.diff_scenario_a);
       ("interface.json", Demo.manifest "v1");
       ("abc.txt", Text.writelines Scenario.a_source)] in
  fst (apply_patch Demo.updater st) = Returned true /\
  manifest_version Demo.updater (snd (apply_patch Demo.updater st))
    = Some (JString "v2").
Proof.
  intros st.
  destruct (successful_run Demo.updater st
              (state_of (for_each patch_one_file
                           [Diff.modified_file "abc.txt" Scenario.a_script]
                           (set_cwd Demo.app st)))
              [Diff.modified_file "abc.txt" Scenario.a_script]
              (Demo.manifest "v1") [("version", JString "v1")])
    as (Hrun & _).
  - split; [vm_compute; set_solver|].
    repeat constructor; cbn; discriminate.
  - vm_compute; set_solver.
  - vm_compute. reflexivity.
  - vm_compute. reflexivity.
  - vm_compute. reflexivity.
  - vm_compute. reflexivity.
  - rewrite Hrun. split; [reflexivity|]. vm_compute. reflexivity.
Defined.

(** X5.  [apply_patch] changes no file but those its patches address and
    the manifest: a file that is none of these holds the same bytes after
    the call, whether the call returns [True] or [False] or raises. *)
Theorem apply_patch_leaves_other_files `{L : Libs} (u : Updater) (st : state)
    (key : list string) :
  key <> manifest_key u st ->
  (forall ps, parsed_patchset u st = Some ps ->
     Forall (fun pf => ~ addresses (base_of u st) pf key) ps) ->
  files (snd (apply_patch u st)) !! key = files st !! key.
Proof.
  intros Hkey Hps. unfold apply_patch, OS.getcwd.
  set (o := Path.render (cwd st)).
  assert (Hchdir : forall s, files (state_of (OS.chdir o s)) = files s).
  { intros s. unfold OS.chdir. destruct (decide _); reflexivity. }
  assert (Htry : files (state_of (apply_patch_try u o st)) !! key
                 = files st !! key).
  { destruct (decide (base_of u st ∈ dirs st)) as [Hbase|Hbase].
    - destruct (parsed_patchset u st) as [ps|] eqn:Hparsed.
      + rewrite (RunFacts.apply_patch_try_unfold u o st ps Hbase Hparsed).
        pose proof (FrameFacts.for_each_untouched ps
                      (set_cwd (base_of u st) st) key (Hps ps eq_refl))
          as Hloop.
        destruct (FrameFacts.frame_for_each ps (set_cwd (base_of u st) st))
          as (Hcwd & _ & _).
        destruct (for_each patch_one_file ps (set_cwd (base_of u st) st))
          as [[] st1|e st1]; cbn [state_of] in *; [|exact Hloop].
        destruct (FrameFacts.frame_update_manifest u st1) as (_ & _ & Hman).
        assert (Hm : files (state_of (update_manifest u st1)) !! key
                     = files st1 !! key).
        { apply Hman. intros n Hn. apply list_elem_of_singleton in Hn.
          subst n. unfold locate. rewrite Hcwd. exact (not_eq_sym Hkey). }
        destruct (update_manifest u st1) as [[] st2|e st2];
          cbn [state_of] in *.
        * rewrite Hchdir, Hm. exact Hloop.
        * rewrite Hm. exact Hloop.
      + destruct (RunFacts.apply_patch_try_early u o st (or_intror Hparsed))
          as (e & st' & -> & Hback).
        cbn [state_of]. exact (f_equal (fun s => files s !! key) Hback).
    - destruct (RunFacts.apply_patch_try_early u o st (or_introl Hbase))
        as (e & st' & -> & Hback).
      cbn [state_of]. exact (f_equal (fun s => files s !! key) Hback). }
  destruct (apply_patch_try u o st) as [[] st'|e st']; cbn [fst snd state_of] in *.
  - specialize (Hchdir st'). destruct (OS.chdir o st'); cbn [snd state_of] in *;
      rewrite Hchdir; exact Htry.
  - specialize (Hchdir st'). destruct (OS.chdir o st'); cbn [snd state_of] in *;
      rewrite Hchdir; exact Htry.
Qed.

(** Scenario A is applied; [other.txt] is not in the diff. *)
Lemma apply_patch_leaves_other_files_witness :
  let st :=
    Demo.machine Demo.home
      [("patch/v1_v2.diff", Demo.diff_scenario_a);
       ("interface.json", Demo.manifest "v1");
       ("abc.txt", Text.writelines Scenario.a_source);
       ("other.txt", Text.ln "kept")] in
  Demo.content (snd (apply_patch Demo.updater st)) "other.txt"
    = Some (Text.ln "kept").
Proof.
  intros st. unfold Demo.content.
  rewrite (apply_patch_leaves_other_files Demo.updater st).
  - vm_compute. reflexivity.
  - vm_compute. discriminate.
  - intros ps Hps. vm_compute in Hps. injection Hps as <-.
    repeat constructor. intros [H|H]; vm_compute in H; discriminate.
Defined.







Module BlindFacts.
Import Blind.

Lemma pop_removed_blank content l :
  Edit.pop_removed content (blank_text l) = Edit.pop_removed content l.
Proof.
  unfold Edit.pop_removed, blank_text, is_removed, is_added.
  destruct l as [[] v s t]; reflexivity.
Qed.

Lemma insert_added_blank content l :
  Edit.insert_added content (blank_text l) = Edit.insert_added content l.
Proof.
  unfold Edit.insert_added, blank_text, is_added.
  destruct l as [[] v s t]; reflexivity.
Qed.

Lemma fold_pop_blank ls content :
  PyList.fold_raise Edit.pop_removed (map blank_text ls) content =
  PyList.fold_raise Edit.pop_removed ls content.
Proof.
  revert content. induction ls as [|l ls IH]; intros content; [reflexivity|].
  cbn [map PyList.fold_raise]. rewrite pop_removed_blank.
  destruct (Edit.pop_removed content l); [apply IH|reflexivity].
Qed.

Lemma fold_insert_blank ls content :
  fold_left Edit.insert_added (map blank_text ls) content =
  fold_left Edit.insert_added ls content.
Proof.
  revert content. induction ls as [|l ls IH]; intros content; [reflexivity|].
  cbn [map fold_left]. rewrite insert_added_blank. apply IH.
Qed.

Lemma all_lines_blank hs :
  Edit.all_lines (map blank_hunk hs) = map blank_text (Edit.all_lines hs).
Proof.
  unfold Edit.all_lines. induction hs as [|h hs IH]; [reflexivity|].
  cbn [map concat]. rewrite IH, map_app. reflexivity.
Qed.

End BlindFacts.

(** X9.  The content edit never looks at what the diff expects the file to
    hold: with the text of every removed line and every context line
    blanked, the hunks edit any line sequence exactly as before.  A file
    that differs from the base of the diff is edited all the same, by
    position alone. *)
Theorem content_edit_ignores_expected_text (content : list string)
    (hs : list Hunk) :
  Edit.patch_lines content (map Blind.blank_hunk hs) =
  Edit.patch_lines content hs.
Proof.
  unfold Edit.patch_lines.
  rewrite !EditFacts.remove_phase_flat, BlindFacts.all_lines_blank.
  rewrite <- map_rev, BlindFacts.fold_pop_blank.
  destruct (PyList.fold_raise Edit.pop_removed (rev (Edit.all_lines hs))
              content) as [c|]; [|reflexivity].
  rewrite !EditFacts.add_phase_flat, BlindFacts.all_lines_blank.
  rewrite BlindFacts.fold_insert_blank. reflexivity.
Qed.

(** The hunk of scenario A removes line 2 of a file whose line 2 is not the
    line the diff removes. *)
Example edit_of_a_diverged_file :
  Edit.patch_lines [Text.ln "a"; Text.ln "LOCAL EDIT"; Text.ln "c"]
    Scenario.a_hunks = Some Scenario.a_expected.
Proof. vm_compute. reflexivity. Qed.

(* ===================================================================== *)
(** * The stored diff *)
(* ===================================================================== *)

Module JoinFacts.
Import Path TextFacts PathFacts.

Lemma step_empty dir : step dir EmptyString = dir.
Proof. reflexivity. Qed.

Lemma ends_with_split c a :
  Text.ends_with c a = true -> exists a', a = a' +:+ String c EmptyString.
Proof.
  induction a as [|x a IH]; [discriminate|].
  cbn [Text.ends_with]. destruct a as [|y a].
  - intros H. apply Ascii.eqb_eq in H. subst x. exists EmptyString.
    reflexivity.
  - intros H. destruct (IH H) as [a' Ha']. exists (String x a').
    rewrite append_cons, <- Ha'. reflexivity.
Qed.

Lemma append_assoc a b c : (a +:+ b) +:+ c = a +:+ (b +:+ c).
Proof.
  induction a as [|x a IH]; [reflexivity|].
  rewrite !append_cons, IH. reflexivity.
Qed.

Lemma startswith_slash_append a b :
  a <> EmptyString ->
  Text.startswith "/" (a +:+ b) = Text.startswith "/" a.
Proof. destruct a as [|x a]; [congruence|]. intros _. reflexivity. Qed.

Lemma resolve_unfold dir p :
  resolve dir p =
  fold_left step (split_slash p) (if Text.startswith "/" p then [] else dir).
Proof. reflexivity. Qed.

(** A path joined to a directory names, from anywhere, what the path names
    from that directory. *)
Lemma resolve_join dir a b :
  resolve dir (join a b) = resolve (resolve dir a) b.
Proof.
  unfold join. destruct (Text.startswith "/" b) eqn:Hb.
  { rewrite !(resolve_unfold _ b), Hb. reflexivity. }
  rewrite (resolve_unfold (resolve dir a) b), Hb.
  destruct (String.eqb_spec a EmptyString) as [->|Ha].
  { cbn [orb]. change (EmptyString +:+ b) with b.
    rewrite (resolve_unfold dir b), Hb. reflexivity. }
  cbn [orb]. destruct (Text.ends_with slash a) eqn:Hend.
  - destruct (ends_with_split _ _ Hend) as [a' ->].
    rewrite append_assoc. change (String slash EmptyString +:+ b)
      with (String slash b).
    rewrite !resolve_unfold, !split_slash_append, !fold_left_app.
    assert (Hs : forall s, Text.startswith "/" (a' +:+ String slash s)
                           = Text.startswith "/" (a' +:+ String slash EmptyString)).
    { intros s. destruct a'; reflexivity. }
    rewrite (Hs b). cbn [split_slash fold_left]. rewrite step_empty.
    reflexivity.
  - rewrite !resolve_unfold, split_slash_append, fold_left_app.
    rewrite startswith_slash_append by exact Ha. reflexivity.
Qed.

End JoinFacts.

Module OccursFacts.
Import Occurs.


End OccursFacts.



Module ProcessFacts.

Lemma parsed_after_processing `{L : Libs} u diff_content st :
  parsed_patchset (snd (fst (process_diff_content u diff_content st)))
    (snd (process_diff_content u diff_content st)) =
  PatchSet_from_string
    (Text.universal_newlines
       (Text.replace "assets/" EmptyString diff_content)).
Proof.
  unfold process_diff_content, parsed_patchset, base_of.
  cbn [fst snd OS.write_text base_dir diff_dir diff_filename files set_files
       cwd locate].
  unfold locate. cbn [cwd set_files].
  rewrite (JoinFacts.resolve_join (cwd st) (Path.join (base_dir u) (diff_dir u))).
  rewrite (JoinFacts.resolve_join (cwd st) (base_dir u) (diff_dir u)).
  rewrite (JoinFacts.resolve_join (Path.resolve (cwd st) (base_dir u))
             (diff_dir u)).
  rewrite lookup_insert_eq. reflexivity.
Qed.

(** [process_diff_content] returns [True]; it leaves the directories, the
    base directory and the versions of the updater as they are. *)
Lemma process_diff_content_spec u diff_content st :
  exists u' st',
    process_diff_content u diff_content st = (true, u', st') /\
    cwd st' = cwd st /\ dirs st' = dirs st /\
    base_dir u' = base_dir u /\ latest_version u' = latest_version u /\
    diff_filename u' =
      format_version (current_version u) +:+ "_" +:+
      format_version (latest_version u) +:+ ".diff".
Proof.
  unfold process_diff_content, OS.write_text.
  eexists _, _. split; [reflexivity|]. repeat split.
Qed.

(** The working directory after [apply_patch] is the one before. *)
Lemma apply_patch_cwd `{L : Libs} u st :
  cwd_ok st -> cwd (snd (apply_patch u st)) = cwd st.
Proof.
  intros Hok. unfold apply_patch, OS.getcwd.
  pose proof (FrameFacts.apply_patch_try_spec u st Hok) as Hspec.
  cbv zeta in Hspec.
  destruct (apply_patch_try u (Path.render (cwd st)) st) as [[] st'|e st'];
    cbn [fst snd]; destruct Hspec as [Hdirs _];
    rewrite (FrameFacts.chdir_back st st' Hok Hdirs); reflexivity.
Qed.

End ProcessFacts.


(* ===================================================================== *)
(** * Reading the manifest *)
(* ===================================================================== *)

Module InterfaceFacts.
Import Interface PathFacts.

Lemma last_two_app {A} (l : list A) (a b : A) :
  Py.last_two (l ++ [a; b]) = [a; b].
Proof.
  unfold Py.last_two. rewrite length_app. cbn [length].
  replace (length l + 2 - 2)%nat with (length l) by lia.
  apply drop_app_length.
Qed.

Lemma split_slash_plain name :
  Occurs.occurs "/" name = false -> Path.split_slash name = [name].
Proof.
  induction name as [|c name IH]; [reflexivity|].
  cbn [Occurs.occurs Text.startswith Path.split_slash]. intros H.
  apply orb_false_iff in H as [Hc Hrest].
  cbn [andb] in Hc. rewrite andb_true_r in Hc.
  change "/"%char with Path.slash in Hc. rewrite Ascii.eqb_sym in Hc.
  rewrite Hc, (IH Hrest). reflexivity.
Qed.

Lemma split_slash_three pre owner name :
  Occurs.occurs "/" owner = false ->
  Occurs.occurs "/" name = false ->
  Path.split_slash
    (pre +:+ String Path.slash (owner +:+ String Path.slash name))
  = Path.split_slash pre ++ [owner; name].
Proof.
  intros Ho Hn. rewrite !split_slash_append.
  rewrite (split_slash_plain _ Ho), (split_slash_plain _ Hn). reflexivity.
Qed.

(** The manifest that [read_interface] opens from the caller's directory
    is the one [apply_patch] opens from the base directory. *)
Lemma manifest_location u st :
  locate st (Path.join (base_dir u) manifest_name) = manifest_key u st.
Proof. apply JoinFacts.resolve_join. Qed.

Lemma read_interface_object `{L : Libs} u st bytes ms :
  files st !! manifest_key u st = Some bytes ->
  json_load (Text.universal_newlines bytes) = Some (JObject ms) ->
  read_interface u st =
  match Json.assoc_get "version" ms with
  | None => ReadRaises (KeyError "version") None
  | Some version =>
      match Json.assoc_get "url" ms with
      | None => ReadRaises (KeyError "url") (Some version)
      | Some (JString url) => ReadTrue version (repo_of_url url)
      | Some _ => ReadRaises AttributeError_not_a_str (Some version)
      end
  end.
Proof.
  intros Hf Hload. unfold read_interface, OS.read_text.
  rewrite manifest_location, Hf, Hload. cbn [subscript].
  destruct (Json.assoc_get "version" ms); [|reflexivity].
  destruct (Json.assoc_get "url" ms); reflexivity.
Qed.

End InterfaceFacts.

(** X12.  From a manifest whose [url] ends in [/OWNER/NAME], with no slash
    in [OWNER] and [NAME], [read_interface] returns [True] with
    [current_version] the value of [version] and [repo] the text
    [OWNER/NAME].  An address with a slash at its end gives [NAME/]
    instead. *)
Theorem read_interface_repo `{L : Libs} (u : Updater) (st : state)
    (bytes : string) (ms : list (string * json)) (version : json)
    (pre owner name : string) :
  files st !! manifest_key u st = Some bytes ->
  json_load (Text.universal_newlines bytes) = Some (JObject ms) ->
  Json.assoc_get "version" ms = Some version ->
  Json.assoc_get "url" ms
    = Some (JString (pre +:+ "/" +:+ owner +:+ "/" +:+ name)) ->
  Occurs.occurs "/" owner = false ->
  Occurs.occurs "/" name = false ->
  Interface.read_interface u st
    = Interface.ReadTrue version (owner +:+ "/" +:+ name) /\
  Interface.repo_of_url (pre +:+ "/" +:+ owner +:+ "/" +:+ name +:+ "/")
    = name +:+ "/".
Proof.
  intros Hf Hload Hv Hurl Ho Hn. split.
  - rewrite (InterfaceFacts.read_interface_object u st bytes ms Hf Hload).
    rewrite Hv, Hurl. unfold Interface.repo_of_url.
    change (pre +:+ "/" +:+ owner +:+ "/" +:+ name)
      with (pre +:+ String Path.slash (owner +:+ String Path.slash name)).
    rewrite (InterfaceFacts.split_slash_three _ _ _ Ho Hn).
    rewrite InterfaceFacts.last_two_app. reflexivity.
  - unfold Interface.repo_of_url.
    change (pre +:+ "/" +:+ owner +:+ "/" +:+ name +:+ "/")
      with (pre +:+ String Path.slash
              (owner +:+ String Path.slash
                 (name +:+ String Path.slash EmptyString))).
    rewrite !PathFacts.split_slash_append.
    rewrite (InterfaceFacts.split_slash_plain _ Ho),
            (InterfaceFacts.split_slash_plain _ Hn).
    change (Path.split_slash EmptyString) with [EmptyString].
    change (Path.split_slash pre ++ [owner] ++ [name] ++ [EmptyString])
      with (Path.split_slash pre ++ [owner] ++ [name; EmptyString]).
    rewrite app_assoc, InterfaceFacts.last_two_app. reflexivity.
Qed.

Lemma read_interface_repo_witness :
  let st := Demo.machine Demo.home
              [("interface.json",
                Interface.demo_manifest "v1"
                  "https://github.com/MaaXYZ/MaaResource")] in
  Interface.read_interface Demo.updater st
    = Interface.ReadTrue (JString "v1") "MaaXYZ/MaaResource".
Proof.
  intros st.
  refine (proj1 (read_interface_repo Demo.updater st
                   (Interface.demo_manifest "v1"
                      "https://github.com/MaaXYZ/MaaResource")
                   [("version", JString "v1");
                    ("url", JString "https://github.com/MaaXYZ/MaaResource")]
                   (JString "v1") "https://github.com" "MaaXYZ" "MaaResource"
                   _ _ _ _ _ _));
    vm_compute; reflexivity.
Defined.

(** X13.  [read_interface] returns [False] exactly when the manifest is
    missing or is not JSON.  A manifest that is JSON but has no [version]
    or no [url] makes it raise [KeyError] instead; in the second case
    [current_version] has been assigned before the exception. *)
Theorem read_interface_false_or_raises `{L : Libs} (u : Updater) (st : state) :
  (Interface.read_interface u st = Interface.ReadFalse <->
   match files st !! manifest_key u st with
   | None => True
   | Some bytes => json_load (Text.universal_newlines bytes) = None
   end) /\
  (forall bytes ms,
     files st !! manifest_key u st = Some bytes ->
     json_load (Text.universal_newlines bytes) = Some (JObject ms) ->
     (Json.assoc_get "version" ms = None ->
      Interface.read_interface u st
        = Interface.ReadRaises (Interface.KeyError "version") None) /\
     (forall version,
        Json.assoc_get "version" ms = Some version ->
        Json.assoc_get "url" ms = None ->
        Interface.read_interface u st
          = Interface.ReadRaises (Interface.KeyError "url") (Some version))).
Proof.
  split.
  - unfold Interface.read_interface, OS.read_text.
    rewrite InterfaceFacts.manifest_location.
    destruct (files st !! manifest_key u st) as [bytes|]; [|tauto].
    destruct (json_load (Text.universal_newlines bytes)) as [data|];
      [|tauto].
    split; [|discriminate].
    destruct (Interface.subscript data "version"); [discriminate|].
    destruct (Interface.subscript data "url") as [|[]]; discriminate.
  - intros bytes ms Hf Hload.
    rewrite (InterfaceFacts.read_interface_object u st bytes ms Hf Hload).
    split.
    + intros ->. reflexivity.
    + intros version -> ->. reflexivity.
Qed.

(** X14.  After an [apply_patch] that applied every patch and rewrote a
    manifest with a [url], with a JSON library that reads back the object
    it writes, [read_interface] returns [True] with the latest version as
    current version and the repository the manifest named before. *)
Theorem read_interface_after_apply_patch `{L : Libs} (u : Updater)
    (st st1 : state) (ps : PatchSet) (bytes : string)
    (ms : list (string * json)) (url : string) :
  cwd_ok st ->
  base_of u st ∈ dirs st ->
  parsed_patchset u st = Some ps ->
  for_each patch_one_file ps (set_cwd (base_of u st) st) = Ok tt st1 ->
  files st1 !! manifest_key u st = Some bytes ->
  json_load (Text.universal_newlines bytes) = Some (JObject ms) ->
  Json.assoc_get "url" ms = Some (JString url) ->
  (let ms' := Json.assoc_set "version" (Json.of_version (latest_version u)) ms
   in json_load (Text.universal_newlines (json_dump_indent4 (JObject ms')))
      = Some (JObject ms')) ->
  fst (apply_patch u st) = Returned true /\
  Interface.read_interface u (snd (apply_patch u st))
    = Interface.ReadTrue (Json.of_version (latest_version u))
        (Interface.repo_of_url url).
Proof.
  intros Hok Hbase Hps Hloop Hf Hload Hurl Hback. cbv zeta in Hback.
  rewrite (ManifestFacts.apply_patch_all_applied u st ps st1 bytes ms
             Hok Hbase Hps Hloop Hf Hload).
  cbn [fst snd]. split; [reflexivity|].
  set (st2 := set_cwd _ _).
  assert (Hkey : manifest_key u st2 = manifest_key u st) by reflexivity.
  rewrite (InterfaceFacts.read_interface_object u st2 _ _
             ltac:(rewrite Hkey; apply lookup_insert_eq) Hback).
  rewrite JsonFacts.assoc_get_set_eq.
  rewrite JsonFacts.assoc_get_set_ne by discriminate.
  rewrite Hurl. reflexivity.
Qed.

(** Scenario A is applied; the manifest then reads as version v2 of the
    same repository. *)
Lemma read_interface_after_apply_patch_witness :
  let st :=
    Demo.machine Demo.home
      [("patch/v1_v2.diff", Demo.diff_scenario_a);
       ("interface.json",
        Interface.demo_manifest "v1" "https://github.com/MaaXYZ/MaaResource");
       ("abc.txt", Text.writelines Scenario.a_source)] in
  fst (apply_patch Demo.updater st) = Returned true /\
  Interface.read_interface Demo.updater (snd (apply_patch Demo.updater st))
    = Interface.ReadTrue (JString "v2") "MaaXYZ/MaaResource".
Proof.
  intros st.
  refine (read_interface_after_apply_patch Demo.updater st
            (state_of (for_each patch_one_file
                         [Diff.modified_file "abc.txt" Scenario.a_script]
                         (set_cwd Demo.app st)))
            [Diff.modified_file "abc.txt" Scenario.a_script]
            (Interface.demo_manifest "v1"
               "https://github.com/MaaXYZ/MaaResource")
            [("version", JString "v1");
             ("url", JString "https://github.com/MaaXYZ/MaaResource")]
            "https://github.com/MaaXYZ/MaaResource" _ _ _ _ _ _ _ _).
  - split; [vm_compute; set_solver|].
    repeat constructor; cbn; discriminate.
  - vm_compute; set_solver.
  - vm_compute. reflexivity.
  - vm_compute. reflexivity.
  - vm_compute. reflexivity.
  - vm_compute. reflexivity.
  - vm_compute. reflexivity.
  - vm_compute. reflexivity.
Defined.

(* ===================================================================== *)
(** * The release feed *)
(* ===================================================================== *)

Module ReleaseFacts.
Import Releases.

Lemma serve_paginates all : paginates (serve all) all.
Proof.
  intros per_page page. unfold serve.
  replace (S page - 1)%nat with page by lia. reflexivity.
Qed.

(** The first [S n] pages are the first page and the [n] that follow. *)
Lemma take_pages {A} (n p : nat) (l : list A) :
  take (S n * p) l = take p l ++ take (n * p) (drop p l).
Proof.
  replace (S n * p)%nat with (p + n * p)%nat by lia.
  symmetry. apply take_take_drop.
Qed.

Lemma drop_pages {A} (k p : nat) (l : list A) :
  drop p (drop (k * p) l) = drop (S k * p) l.
Proof. rewrite drop_drop. f_equal. lia. Qed.

Lemma empty_page {A} (k p : nat) (l : list A) :
  (0 < p)%nat ->
  take p (drop (k * p) l) = [] -> drop (k * p) l = [].
Proof.
  intros Hp H. destruct (drop (k * p) l); [reflexivity|].
  destruct p; [lia|discriminate].
Qed.

Lemma first_wanted_app w l1 l2 :
  first_wanted w (l1 ++ l2) =
  match first_wanted w l1 with
  | Some v => Some v
  | None => first_wanted w l2
  end.
Proof.
  induction l1 as [|t l1 IH]; cbn; [reflexivity|].
  destruct (passed_over w t); auto.
Qed.

Lemma first_wanted_passed_over w l :
  Forall (fun t => passed_over w t = true) l -> first_wanted w l = None.
Proof. induction 1 as [|t l Ht _ IH]; cbn; [|rewrite Ht]; auto. Qed.

Lemma first_wanted_none w l :
  first_wanted w l = None -> Forall (fun t => passed_over w t = true) l.
Proof.
  induction l as [|t l IH]; cbn; [constructor|].
  destruct (passed_over w t) eqn:Ht; [|discriminate].
  intros H. constructor; auto.
Qed.

(** Pagination does not show in [get_latest_version]: the pages from
    [S k] on are searched like the list they are cut from. *)
Lemma latest_in_pages_flat w feed all p :
  paginates feed all -> (0 < p)%nat ->
  forall n k,
    latest_in_pages w (feed p) (seq (S k) n) =
    match first_wanted w (take (n * p) (drop (k * p) all)) with
    | Some v => LatestTrue v
    | None => LatestFalse
    end.
Proof.
  intros Hfeed Hp. induction n as [|n IH]; intros k; [reflexivity|].
  cbn [seq latest_in_pages]. rewrite Hfeed, take_pages, first_wanted_app.
  destruct (take p (drop (k * p) all)) as [|t ts] eqn:Hpage.
  - apply (empty_page k p all Hp) in Hpage. rewrite Hpage.
    rewrite drop_nil, take_nil. reflexivity.
  - destruct (first_wanted w (t :: ts)); [reflexivity|].
    rewrite IH, drop_pages. reflexivity.
Qed.

Lemma get_latest_version_flat w feed all p :
  paginates feed all -> (0 < p)%nat ->
  get_latest_version w feed p =
  match first_wanted w (take (100 * p) all) with
  | Some v => LatestTrue v
  | None => LatestFalse
  end.
Proof.
  intros Hfeed Hp. unfold get_latest_version, pages.
  rewrite (latest_in_pages_flat w feed all p Hfeed Hp 100 0). reflexivity.
Qed.

Lemma walk_tags_app cur w l1 l2 c f :
  walk_tags cur w (l1 ++ l2) c f =
  match walk_tags cur w l1 c f with
  | inl text => inl text
  | inr (c', f') => walk_tags cur w l2 c' f'
  end.
Proof.
  revert c f. induction l1 as [|t l1 IH]; intros c f; cbn; [reflexivity|].
  destruct (is_current cur t); [reflexivity|].
  destruct (negb f && passed_over w t); apply IH.
Qed.

(** Pagination does not show in [generate_changelog] either, but for the
    empty page that ends a feed. *)
Lemma walk_pages_flat repo cur w feed all p :
  paginates feed all -> (0 < p)%nat ->
  forall n k c f,
    walk_pages repo cur w (feed p) (seq (S k) n) c f =
    match walk_tags cur w (take (n * p) (drop (k * p) all)) c f with
    | inl text => Changelog text
    | inr (c', _) =>
        if (0 <? n)%nat && (length all <=? (k + n - 1) * p)%nat
        then Changelog (invalid_tag repo)
        else Changelog (Py.str_join Text.nl c')
    end.
Proof.
  intros Hfeed Hp. induction n as [|n IH]; intros k c f; [reflexivity|].
  cbn [seq walk_pages]. rewrite Hfeed, take_pages, walk_tags_app.
  destruct (take p (drop (k * p) all)) as [|t ts] eqn:Hpage.
  - apply (empty_page k p all Hp) in Hpage. rewrite Hpage.
    rewrite drop_nil, take_nil. cbn [walk_tags].
    apply (f_equal length) in Hpage. rewrite length_drop in Hpage.
    cbn in Hpage.
    replace (length all <=? (k + S n - 1) * p)%nat with true
      by (symmetry; apply Nat.leb_le; nia).
    reflexivity.
  - destruct (walk_tags cur w (t :: ts) c f) as [text|[c' f']];
      [reflexivity|].
    rewrite IH, drop_pages.
    destruct (walk_tags cur w _ c' f') as [text|[c'' f'']]; [reflexivity|].
    assert (Hlen : (k * p < length all)%nat).
    { apply (f_equal length) in Hpage. rewrite length_take, length_drop in Hpage.
      cbn in Hpage. lia. }
    replace (S k + n - 1)%nat with (k + S n - 1)%nat by lia.
    destruct n as [|n]; [|reflexivity].
    cbn [Nat.ltb Nat.leb andb].
    replace (length all <=? (k + 1 - 1) * p)%nat with false; [reflexivity|].
    symmetry. apply Nat.leb_gt. replace (k + 1 - 1)%nat with k by lia. lia.
Qed.

Lemma generate_changelog_flat repo cur w feed all p :
  paginates feed all -> (0 < p)%nat ->
  generate_changelog repo cur w feed p =
  match walk_tags cur w (take (100 * p) all) [] false with
  | inl text => Changelog text
  | inr (c, _) =>
      if (length all <=? 99 * p)%nat
      then Changelog (invalid_tag repo)
      else Changelog (Py.str_join Text.nl c)
  end.
Proof.
  intros Hfeed Hp. unfold generate_changelog, pages.
  rewrite (walk_pages_flat repo cur w feed all p Hfeed Hp 100 0 [] false).
  reflexivity.
Qed.

(** Releases passed over before the first entry leave no trace. *)
Lemma walk_passed_over cur w l c :
  Forall (fun t => is_current cur t = false) l ->
  Forall (fun t => passed_over w t = true) l ->
  walk_tags cur w l c false = inr (c, false).
Proof.
  intros Hc Hs. revert c. induction l as [|t l IH]; intros c; [reflexivity|].
  inversion Hc; inversion Hs; subst. cbn.
  rewrite H1, H5. cbn. auto.
Qed.

(** Once an entry is listed, every release up to the current one is. *)
Lemma walk_started cur w l c :
  Forall (fun t => is_current cur t = false) l ->
  walk_tags cur w l c true = inr (c ++ map entry l, true).
Proof.
  intros Hc. revert c. induction l as [|t l IH]; intros c.
  - cbn. rewrite app_nil_r. reflexivity.
  - inversion Hc; subst. cbn. rewrite H1. cbn.
    rewrite IH by assumption. rewrite <- app_assoc. reflexivity.
Qed.

Lemma walk_listed cur w l c :
  Forall (fun t => is_current cur t = false) l ->
  starts_listed w l ->
  walk_tags cur w l c false = inr (c ++ map entry l, bool_decide (l <> [])).
Proof.
  intros Hc Hs. destruct l as [|t l].
  - cbn. rewrite app_nil_r. reflexivity.
  - inversion Hc; subst. cbn in Hs. cbn [walk_tags].
    rewrite H1, Hs. cbn [negb andb].
    rewrite walk_started by assumption.
    rewrite <- app_assoc. reflexivity.
Qed.

Lemma take_past {A} (n : nat) (l1 : list A) (x : A) (l2 : list A) :
  (length l1 < n)%nat ->
  exists rest, take n (l1 ++ x :: l2) = l1 ++ x :: rest.
Proof.
  intros Hlen. rewrite take_app_ge by lia.
  destruct (n - length l1)%nat as [|m] eqn:Hm; [lia|].
  eexists. reflexivity.
Qed.

Lemma walk_to_current cur w skipped listed t rest :
  Forall (fun t => is_current cur t = false) (skipped ++ listed) ->
  Forall (fun t => passed_over w t = true) skipped ->
  starts_listed w listed ->
  is_current cur t = true ->
  walk_tags cur w (skipped ++ listed ++ t :: rest) [] false
  = inl (Py.str_join Text.nl (map entry listed)).
Proof.
  intros Hc Hs Hl Ht. apply Forall_app in Hc as [Hc1 Hc2].
  rewrite walk_tags_app, (walk_passed_over cur w skipped [] Hc1 Hs).
  rewrite walk_tags_app, (walk_listed cur w listed [] Hc2 Hl).
  cbn. rewrite Ht. reflexivity.
Qed.

(** Every list of releases is a run of releases passed over followed by a
    list that begins with one that is not. *)
Lemma split_passed_over w l :
  exists skipped listed,
    l = skipped ++ listed /\
    Forall (fun t => passed_over w t = true) skipped /\
    starts_listed w listed.
Proof.
  induction l as [|t l (skipped & listed & -> & Hs & Hl)].
  - exists [], []. repeat split; constructor.
  - destruct (passed_over w t) eqn:Ht.
    + exists (t :: skipped), listed. repeat split; [|assumption].
      constructor; assumption.
    + exists [], (t :: skipped ++ listed). repeat split; [constructor|].
      exact Ht.
Qed.


Lemma first_wanted_elem w l v :
  first_wanted w l = Some v -> exists t, In t l /\ tag_name t = v.
Proof.
  induction l as [|t l IH]; cbn; [discriminate|].
  destruct (passed_over w t).
  - intros H. destruct (IH H) as (t' & Hin & Hn). eauto.
  - intros [= <-]. eauto.
Qed.

(** The changelog of a feed cut at the current version. *)
Lemma changelog_split repo current w feed all skipped listed after cur p :
  paginates feed all ->
  (0 < p)%nat ->
  all = skipped ++ listed ++ cur :: after ->
  is_current current cur = true ->
  Forall (fun t => is_current current t = false) (skipped ++ listed) ->
  Forall (fun t => passed_over w t = true) skipped ->
  starts_listed w listed ->
  (length (skipped ++ listed) < 100 * p)%nat ->
  generate_changelog repo current w feed p
    = Changelog (Py.str_join Text.nl (map entry listed)).
Proof.
  intros Hfeed Hp -> Hcur Hc Hs Hl Hlen.
  rewrite (generate_changelog_flat repo current w feed _ p Hfeed Hp).
  rewrite app_assoc.
  destruct (take_past (100 * p) (skipped ++ listed) cur after Hlen)
    as [rest ->].
  rewrite <- app_assoc.
  rewrite (walk_to_current current w skipped listed cur rest Hc Hs Hl Hcur).
  reflexivity.
Qed.

End ReleaseFacts.

(** X15.  With a feed that serves the releases newest first,
    [get_latest_version] returns [True] with the tag of the first release
    that is not a prerelease to pass over, whatever the page size, as long
    as that release is among the first [100 * per_page]. *)
Theorem latest_release_selected (w : bool) (feed : Releases.Feed)
    (all skipped after : list Releases.Tag) (tag : Releases.Tag)
    (per_page : nat) :
  Releases.paginates feed all ->
  (0 < per_page)%nat ->
  all = skipped ++ tag :: after ->
  Forall (fun t => Releases.passed_over w t = true) skipped ->
  Releases.passed_over w tag = false ->
  (length skipped < 100 * per_page)%nat ->
  Releases.get_latest_version w feed per_page
    = Releases.LatestTrue (Releases.tag_name tag).
Proof.
  intros Hfeed Hp -> Hs Ht Hlen.
  rewrite (ReleaseFacts.get_latest_version_flat w feed _ per_page Hfeed Hp).
  destruct (ReleaseFacts.take_past (100 * per_page) skipped tag after Hlen)
    as [rest ->].
  rewrite ReleaseFacts.first_wanted_app.
  rewrite (ReleaseFacts.first_wanted_passed_over w skipped Hs).
  cbn. rewrite Ht. reflexivity.
Qed.

Lemma latest_release_selected_witness :
  Releases.get_latest_version false (Releases.serve Releases.demo_feed) 5
    = Releases.LatestTrue "v3" /\
  Releases.get_latest_version true (Releases.serve Releases.demo_feed) 1
    = Releases.LatestTrue "v4-beta".
Proof.
  split.
  - refine (latest_release_selected false (Releases.serve Releases.demo_feed)
              Releases.demo_feed
              [Releases.mkTag "v4-beta" true (Some "try it")]
              [Releases.mkTag "v2" false None;
               Releases.mkTag "v1" false (Some "first")]
              (Releases.mkTag "v3" false (Some "third")) 5
              (ReleaseFacts.serve_paginates _) _ _ _ _ _);
      [lia|reflexivity|repeat constructor|reflexivity|cbn; lia].
  - refine (latest_release_selected true (Releases.serve Releases.demo_feed)
              Releases.demo_feed []
              [Releases.mkTag "v3" false (Some "third");
               Releases.mkTag "v2" false None;
               Releases.mkTag "v1" false (Some "first")]
              (Releases.mkTag "v4-beta" true (Some "try it")) 1
              (ReleaseFacts.serve_paginates _) _ _ _ _ _);
      [lia|reflexivity|constructor|reflexivity|cbn; lia].
Defined.

(** X16.  With such a feed no request fails, and [get_latest_version]
    returns [False] exactly when each of the first [100 * per_page]
    releases is a prerelease to pass over: a release behind them is never
    reached. *)
Theorem no_release_selected (w : bool) (feed : Releases.Feed)
    (all : list Releases.Tag) (per_page : nat) :
  Releases.paginates feed all ->
  (0 < per_page)%nat ->
  Releases.get_latest_version w feed per_page <> Releases.LatestRaises /\
  (Releases.get_latest_version w feed per_page = Releases.LatestFalse <->
   Forall (fun t => Releases.passed_over w t = true)
     (take (100 * per_page) all)).
Proof.
  intros Hfeed Hp.
  rewrite (ReleaseFacts.get_latest_version_flat w feed _ per_page Hfeed Hp).
  destruct (Releases.first_wanted w (take (100 * per_page) all)) as [v|] eqn:H.
  - split; [discriminate|]. split; [discriminate|].
    intros Hall. apply ReleaseFacts.first_wanted_passed_over in Hall.
    congruence.
  - split; [discriminate|]. split; [|reflexivity].
    intros _. apply ReleaseFacts.first_wanted_none, H.
Qed.

(** A feed of prereleases only, and the empty feed. *)
Lemma no_release_selected_witness :
  Releases.get_latest_version false
    (Releases.serve [Releases.mkTag "v4-beta" true None]) 5
    = Releases.LatestFalse /\
  Releases.get_latest_version true (Releases.serve []) 5
    = Releases.LatestFalse.
Proof.
  split.
  - apply (no_release_selected false _ [Releases.mkTag "v4-beta" true None] 5
             (ReleaseFacts.serve_paginates _)); [lia|].
    repeat constructor.
  - apply (no_release_selected true _ [] 5
             (ReleaseFacts.serve_paginates _)); [lia|].
    constructor.
Defined.

(** X17.  With such a feed in which the current version is among the first
    [100 * per_page] releases, [generate_changelog] returns the entries of
    the releases before it, newest first, joined by line feeds, without the
    prereleases to pass over that come before the first entry; a prerelease
    after the first entry is listed. *)
Theorem changelog_up_to_current (repo current : option string) (w : bool)
    (feed : Releases.Feed)
    (all skipped listed after : list Releases.Tag) (cur : Releases.Tag)
    (per_page : nat) :
  Releases.paginates feed all ->
  (0 < per_page)%nat ->
  all = skipped ++ listed ++ cur :: after ->
  Releases.is_current current cur = true ->
  Forall (fun t => Releases.is_current current t = false)
    (skipped ++ listed) ->
  Forall (fun t => Releases.passed_over w t = true) skipped ->
  Releases.starts_listed w listed ->
  (length (skipped ++ listed) < 100 * per_page)%nat ->
  Releases.generate_changelog repo current w feed per_page
    = Releases.Changelog
        (Py.str_join Text.nl (map Releases.entry listed)).
Proof.
  intros Hfeed Hp Hall Hcur Hc Hs Hl Hlen.
  exact (ReleaseFacts.changelog_split repo current w feed all skipped listed
           after cur per_page Hfeed Hp Hall Hcur Hc Hs Hl Hlen).
Qed.

(** The changelog from v1 lists v3 and v2, not the prerelease before
    them; the body of v2 is a JSON null. *)
Lemma changelog_up_to_current_witness :
  Releases.generate_changelog (Some "MaaXYZ/MaaResource") (Some "v1") false
    (Releases.serve Releases.demo_feed) 30
  = Releases.Changelog
      (Text.ln "# v3:" +:+ Text.nl +:+ Text.ln "third" +:+ Text.nl +:+
       Text.ln "# v2:" +:+ Text.nl +:+ Text.ln "None").
Proof.
  refine (changelog_up_to_current (Some "MaaXYZ/MaaResource") (Some "v1")
            false (Releases.serve Releases.demo_feed) Releases.demo_feed
            [Releases.mkTag "v4-beta" true (Some "try it")]
            [Releases.mkTag "v3" false (Some "third");
             Releases.mkTag "v2" false None]
            [] (Releases.mkTag "v1" false (Some "first")) 30
            (ReleaseFacts.serve_paginates _) _ _ _ _ _ _ _);
    [lia|reflexivity|reflexivity|repeat constructor|repeat constructor
    |reflexivity|cbn; lia].
Defined.

(** X18.  With such a feed of at most [99 * per_page] releases none of
    which is the current version, [generate_changelog] returns, as the
    changelog, the text that asks for a new download. *)
Theorem changelog_of_unknown_version (repo current : option string)
    (w : bool) (feed : Releases.Feed) (all : list Releases.Tag)
    (per_page : nat) :
  Releases.paginates feed all ->
  (0 < per_page)%nat ->
  Forall (fun t => Releases.is_current current t = false) all ->
  (length all <= 99 * per_page)%nat ->
  Releases.generate_changelog repo current w feed per_page
    = Releases.Changelog (Releases.invalid_tag repo).
Proof.
  intros Hfeed Hp Hc Hlen.
  rewrite (ReleaseFacts.generate_changelog_flat repo current w feed _
             per_page Hfeed Hp).
  rewrite take_ge by lia.
  destruct (ReleaseFacts.split_passed_over w all)
    as (skipped & listed & -> & Hs & Hl).
  apply Forall_app in Hc as [Hc1 Hc2].
  rewrite ReleaseFacts.walk_tags_app.
  rewrite (ReleaseFacts.walk_passed_over current w skipped [] Hc1 Hs).
  rewrite (ReleaseFacts.walk_listed current w listed [] Hc2 Hl).
  apply Nat.leb_le in Hlen. rewrite Hlen. reflexivity.
Qed.

Lemma changelog_of_unknown_version_witness :
  Releases.generate_changelog (Some "MaaXYZ/MaaResource") (Some "v0") false
    (Releases.serve Releases.demo_feed) 30
  = Releases.Changelog
      "Invaild tag! Please redownload in https://github.com/MaaXYZ/MaaResource/releases/latest".
Proof.
  refine (changelog_of_unknown_version (Some "MaaXYZ/MaaResource") (Some "v0")
            false (Releases.serve Releases.demo_feed) Releases.demo_feed 30
            (ReleaseFacts.serve_paginates _) _ _ _);
    [lia|repeat constructor|cbn; lia].
Defined.



(** X20.  When the current version is a prerelease to pass over and so is
    every release before it, the changelog is empty and the version
    [get_latest_version] selects, if any, is a release older than the
    current one. *)
Theorem passed_over_current_version (repo current : option string) (w : bool)
    (feed : Releases.Feed) (all before after : list Releases.Tag)
    (cur : Releases.Tag) (per_page per_page' : nat) :
  Releases.paginates feed all ->
  (0 < per_page)%nat ->
  (0 < per_page')%nat ->
  all = before ++ cur :: after ->
  Releases.is_current current cur = true ->
  Forall (fun t => Releases.is_current current t = false) before ->
  Forall (fun t => Releases.passed_over w t = true) before ->
  Releases.passed_over w cur = true ->
  (length before < 100 * per_page')%nat ->
  Releases.generate_changelog repo current w feed per_page'
    = Releases.Changelog EmptyString /\
  forall latest,
    Releases.get_latest_version w feed per_page
      = Releases.LatestTrue latest ->
    exists tag, In tag after /\ Releases.tag_name tag = latest.
Proof.
  intros Hfeed Hp Hp' -> Hcur Hc Hs Hpass Hlen. split.
  - apply (ReleaseFacts.changelog_split repo current w feed _ before []
             after cur per_page' Hfeed Hp' eq_refl Hcur);
      rewrite ?app_nil_r; try assumption. exact I.
  - intros latest Hlatest.
    rewrite (ReleaseFacts.get_latest_version_flat w feed _ per_page Hfeed Hp)
      in Hlatest.
    destruct (Releases.first_wanted w _) as [v|] eqn:Hfirst; [|discriminate].
    injection Hlatest as ->.
    assert (Hall : Releases.first_wanted w
                     (take (100 * per_page) ((before ++ [cur]) ++ after))
                   = Some latest)
      by (rewrite <- app_assoc; exact Hfirst).
    assert (Hs' : Forall (fun t => Releases.passed_over w t = true)
                    (before ++ [cur]))
      by (apply Forall_app; split; [assumption|repeat constructor; assumption]).
    clear Hfirst.
    destruct (decide (length (before ++ [cur]) <= 100 * per_page)%nat)
      as [Hle|Hgt].
    + rewrite take_app_ge, ReleaseFacts.first_wanted_app in Hall by exact Hle.
      rewrite (ReleaseFacts.first_wanted_passed_over w _ Hs') in Hall.
      destruct (ReleaseFacts.first_wanted_elem w _ _ Hall) as (t & Hin & Hn).
      exists t. split; [|exact Hn].
      apply list_elem_of_In. apply list_elem_of_In in Hin.
      eapply subseteq_take, Hin.
    + rewrite take_app_le in Hall by lia.
      rewrite ReleaseFacts.first_wanted_passed_over in Hall; [discriminate|].
      apply Forall_take, Hs'.
Qed.

(** The installed version is the prerelease at the head of the feed and
    prereleases are not wanted: the changelog is empty and v3 is
    selected. *)
Lemma passed_over_current_version_witness :
  Releases.generate_changelog (Some "MaaXYZ/MaaResource") (Some "v4-beta")
    false (Releases.serve Releases.demo_feed) 30
  = Releases.Changelog EmptyString /\
  Releases.get_latest_version false (Releases.serve Releases.demo_feed) 5
  = Releases.LatestTrue "v3".
Proof.
  split; [|vm_compute; reflexivity].
  refine (proj1 (passed_over_current_version (Some "MaaXYZ/MaaResource")
            (Some "v4-beta") false (Releases.serve Releases.demo_feed)
            Releases.demo_feed []
            [Releases.mkTag "v3" false (Some "third");
             Releases.mkTag "v2" false None;
             Releases.mkTag "v1" false (Some "first")]
            (Releases.mkTag "v4-beta" true (Some "try it")) 5 30
            (ReleaseFacts.serve_paginates _) _ _ _ _ _ _ _ _));
    [lia|lia|reflexivity|reflexivity|constructor|constructor|reflexivity
    |cbn; lia].
Defined.

(* ===================================================================== *)
(** * What [True] means *)
(* ===================================================================== *)

(** X21.  [apply_patch] returns [True] only when the stored diff was
    parsed, every file patch went through and the manifest, a JSON
    object, was rewritten with the latest version: the state it leaves
    is that of the last patch with the new manifest, in the caller's
    directory. *)
Theorem apply_patch_true_means_all_applied `{L : Libs} (u : Updater)
    (st : state) :
  cwd_ok st ->
  fst (apply_patch u st) = Returned true ->
  exists ps st1 ms,
    parsed_patchset u st = Some ps /\
    for_each patch_one_file ps (set_cwd (base_of u st) st) = Ok tt st1 /\
    snd (apply_patch u st) =
      set_cwd (cwd st)
        (set_files
           (<[manifest_key u st :=
                json_dump_indent4
                  (JObject (Json.assoc_set "version"
                              (Json.of_version (latest_version u)) ms))]>
              (files st1)) st1).
Proof.
  intros Hok Htrue.
  destruct (ManifestFacts.apply_patch_true u st Hok Htrue)
    as (ps & st1 & bytes & ms & Hbase & Hps & Hloop & Hf & Hl).
  exists ps, st1, ms. repeat split; try assumption.
  rewrite (ManifestFacts.apply_patch_all_applied u st ps st1 bytes ms
             Hok Hbase Hps Hloop Hf Hl).
  reflexivity.
Qed.

Lemma apply_patch_true_means_all_applied_witness :
  let st :=
    Demo.machine Demo.home
      [("patch/v1_v2.diff", Demo.diff_scenario_a);
       ("interface.json", Demo.manifest "v1");
       ("abc.txt", Text.writelines Scenario.a_source)] in
  exists ps st1 ms,
    parsed_patchset Demo.updater st = Some ps /\
    for_each patch_one_file ps (set_cwd (base_of Demo.updater st) st)
      = Ok tt st1 /\
    snd (apply_patch Demo.updater st) =
      set_cwd (cwd st)
        (set_files
           (<[manifest_key Demo.updater st :=
                json_dump_indent4
                  (JObject (Json.assoc_set "version"
                              (Json.of_version (latest_version Demo.updater))
                              ms))]>
              (files st1)) st1).
Proof.
  intros st.
  apply (apply_patch_true_means_all_applied Demo.updater st).
  - split; [vm_compute; set_solver|].
    repeat constructor; cbn; discriminate.
  - vm_compute. reflexivity.
Defined.

Module PatchFacts.
Import Net.

(** [patch] after a download: the diff is processed and applied. *)
Lemma patch_downloaded `{L : Libs} net repo u st diff :
  get_diff_content net repo u = Some diff ->
  let u' := snd (fst (process_diff_content u diff st)) in
  let st' := snd (process_diff_content u diff st) in
  patch net repo u st =
  match apply_patch u' st' with
  | (Returned true, st'') => (true, u', st'')
  | (_, st'') => (false, u', st'')
  end.
Proof.
  intros Hget. unfold patch. rewrite Hget.
  destruct (ProcessFacts.process_diff_content_spec u diff st)
    as (u' & st' & -> & _). reflexivity.
Qed.

End PatchFacts.

(** X22.  [patch] returns [True] only when the diff was downloaded, the
    processed diff was parsed and every file patch went through; the
    manifest then holds the latest version, the updater names the diff
    after the two versions, and the working directory is the caller's. *)
Theorem patch_true_means_updated `{L : Libs} (net : Net.Network)
    (repo : option string) (u : Updater) (st : state) :
  cwd_ok st ->
  fst (fst (Net.patch net repo u st)) = true ->
  exists diff ps ms,
    Net.get_diff_content net repo u = Some diff /\
    PatchSet_from_string
      (Text.universal_newlines (Text.replace "assets/" EmptyString diff))
      = Some ps /\
    diff_filename (snd (fst (Net.patch net repo u st))) =
      format_version (current_version u) +:+ "_" +:+
      format_version (latest_version u) +:+ ".diff" /\
    cwd (snd (Net.patch net repo u st)) = cwd st /\
    files (snd (Net.patch net repo u st)) !! manifest_key u st =
      Some (json_dump_indent4
              (JObject (Json.assoc_set "version"
                          (Json.of_version (latest_version u)) ms))).
Proof.
  intros Hok Htrue.
  destruct (Net.get_diff_content net repo u) as [diff|] eqn:Hget;
    [|unfold Net.patch in Htrue; rewrite Hget in Htrue; discriminate].
  rewrite (PatchFacts.patch_downloaded net repo u st diff Hget) in Htrue |- *.
  cbv zeta in Htrue |- *.
  pose proof (ProcessFacts.parsed_after_processing u diff st) as Hparsed.
  destruct (ProcessFacts.process_diff_content_spec u diff st)
    as (u' & st' & Hp & Hcwd & Hdirs & Hbase & Hlatest & Hname).
  rewrite Hp in Htrue, Hparsed |- *. cbn [fst snd] in Htrue, Hparsed |- *.
  assert (Hok' : cwd_ok st')
    by (unfold cwd_ok; rewrite Hcwd, Hdirs; exact Hok).
  assert (Hkey : manifest_key u' st' = manifest_key u st)
    by (unfold manifest_key, base_of, locate; rewrite Hcwd, Hbase;
        reflexivity).
  destruct (apply_patch u' st') as [[[]|e] st''] eqn:Hrun;
    try discriminate.
  destruct (ManifestFacts.apply_patch_true u' st' Hok'
              ltac:(rewrite Hrun; reflexivity))
    as (ps & st1 & bytes & ms & Hb & Hps & Hloop & Hf & Hl).
  pose proof (ManifestFacts.apply_patch_all_applied u' st' ps st1 bytes ms
                Hok' Hb Hps Hloop Hf Hl) as Hsucc.
  rewrite Hrun in Hsucc. injection Hsucc as ->.
  exists diff, ps, ms. cbn [fst snd].
  split; [reflexivity|]. split; [congruence|]. split; [exact Hname|].
  split; [exact Hcwd|].
  cbn [files set_cwd set_files]. rewrite Hkey, Hlatest.
  apply lookup_insert_eq.
Qed.

(** X23.  [patch] leaves the process in the directory it was called in,
    whether it returns [True] or [False]. *)
Theorem patch_restores_cwd `{L : Libs} (net : Net.Network)
    (repo : option string) (u : Updater) (st : state) :
  cwd_ok st ->
  cwd (snd (Net.patch net repo u st)) = cwd st.
Proof.
  intros Hok.
  destruct (Net.get_diff_content net repo u) as [diff|] eqn:Hget;
    [|unfold Net.patch; rewrite Hget; reflexivity].
  rewrite (PatchFacts.patch_downloaded net repo u st diff Hget).
  cbv zeta.
  destruct (ProcessFacts.process_diff_content_spec u diff st)
    as (u' & st' & Hp & Hcwd & Hdirs & _).
  rewrite Hp. cbn [fst snd].
  assert (Hok' : cwd_ok st')
    by (unfold cwd_ok; rewrite Hcwd, Hdirs; exact Hok).
  pose proof (ProcessFacts.apply_patch_cwd u' st' Hok') as Hback.
  destruct (apply_patch u' st') as [[[]|e] st'']; cbn [snd] in Hback |- *;
    congruence.
Qed.

(** The diff of scenario A is downloaded, stored and applied. *)
Lemma patch_true_means_updated_witness :
  exists diff ps ms,
    Net.get_diff_content Net.demo_network Net.demo_repo Demo.updater
      = Some diff /\
    PatchSet_from_string
      (Text.universal_newlines (Text.replace "assets/" EmptyString diff))
      = Some ps /\
    diff_filename
      (snd (fst (Net.patch Net.demo_network Net.demo_repo Demo.updater
                   Net.demo_machine))) = "v1_v2.diff" /\
    cwd (snd (Net.patch Net.demo_network Net.demo_repo Demo.updater
                Net.demo_machine)) = Demo.home /\
    files (snd (Net.patch Net.demo_network Net.demo_repo Demo.updater
                  Net.demo_machine))
      !! manifest_key Demo.updater Net.demo_machine =
      Some (json_dump_indent4
              (JObject (Json.assoc_set "version" (JString "v2") ms))).
Proof.
  apply (patch_true_means_updated Net.demo_network Net.demo_repo
           Demo.updater Net.demo_machine).
  - split; [vm_compute; set_solver|].
    repeat constructor; cbn; discriminate.
  - vm_compute. reflexivity.
Defined.

Lemma patch_restores_cwd_witness :
  cwd (snd (Net.patch Net.demo_network Net.demo_repo Demo.updater
              Net.demo_machine)) = Demo.home /\
  cwd (snd (Net.patch (Net.mkNetwork (fun _ => None) (fun _ => None))
              Net.demo_repo Demo.updater Net.demo_machine)) = Demo.home.
Proof.
  assert (Hok : cwd_ok Net.demo_machine).
  { split; [vm_compute; set_solver|].
    repeat constructor; cbn; discriminate. }
  split.
  - exact (patch_restores_cwd Net.demo_network Net.demo_repo Demo.updater
             Net.demo_machine Hok).
  - exact (patch_restores_cwd (Net.mkNetwork (fun _ => None) (fun _ => None))
             Net.demo_repo Demo.updater Net.demo_machine Hok).
Defined.


